(** * A shallow embedding of [invokeai/backend/model_manager/cache.py]

    The file follows the Python module top to bottom: the record kept per
    cached model ([_CacheRecord]), the cache object ([ModelCache]) with its
    dictionary of records and its LRU stack, the context manager returned by
    [get_model] ([ModelLocker]) and the two reclamation passes
    ([_make_cache_room], [_offload_unlocked_models]).

    Python objects that are shared and mutated (a [_CacheRecord] is held both
    by the dictionary and by every [ModelLocker] made for it) live in an
    object store and are referred to by their address.  Exceptions are results
    of a small state-and-error monad: a raised exception keeps the mutations
    done before it.

    What the module asks of its environment is given to each operation as a
    [Runtime]: whether a path exists, the reference count of a model, and the
    outcome of each tier transfer [model.to(...)].  The value of
    [torch.cuda.memory_allocated()] is part of the state and changes only
    through the transfers.  Logging, [gc.collect()], the clearing of stale
    frames and [torch.cuda.empty_cache()] do not touch the state of the
    cache and are left out; the provider's descriptor is taken to be built
    and to report its size without raising.  Every model a provider loads is
    a new object. *)

From Stdlib Require Import ZArith QArith String Ascii Bool Lia.
From stdpp Require Import base list sorting.

Local Open Scope string_scope.
Local Open Scope list_scope.
Local Open Scope Z_scope.

(** ** Constants of the module *)

(** actual size of a gig *)
Definition GIG : Z := 1073741824.

(** The two sizes given in GB are Python floats; they are taken here as
    rationals, with exact arithmetic. *)
Definition DEFAULT_MAX_CACHE_SIZE : Q := 6 # 1.
Definition DEFAULT_MAX_VRAM_CACHE_SIZE : Q := 275 # 100.

(** ** Python dictionaries

    A [dict] keeps its keys in insertion order: assigning to a present key
    keeps its place, assigning to an absent one appends, [del] takes the key
    out. *)

Definition dict (V : Type) : Type := list (string * V).

Fixpoint dict_get {V} (d : dict V) (k : string) : option V :=
  match d with
  | [] => None
  | (k', v) :: d' => if String.eqb k' k then Some v else dict_get d' k
  end.

Fixpoint dict_set {V} (d : dict V) (k : string) (v : V) : dict V :=
  match d with
  | [] => [(k, v)]
  | (k', v') :: d' =>
      if String.eqb k' k then (k', v) :: d' else (k', v') :: dict_set d' k v
  end.

Fixpoint dict_del {V} (d : dict V) (k : string) : dict V :=
  match d with
  | [] => []
  | (k', v') :: d' => if String.eqb k' k then d' else (k', v') :: dict_del d' k
  end.

Definition dict_keys {V} (d : dict V) : list string := fst <$> d.
Definition dict_values {V} (d : dict V) : list V := snd <$> d.

(** [list.remove(x)]: the first occurrence goes; [None] stands for the
    [ValueError] raised when there is none. *)
Fixpoint list_remove (x : string) (l : list string) : option (list string) :=
  match l with
  | [] => None
  | y :: l' =>
      if String.eqb y x then Some l'
      else match list_remove x l' with
           | Some r => Some (y :: r)
           | None => None
           end
  end.

(** [del l[pos]] for a position in range. *)
Fixpoint list_del_at {A} (pos : nat) (l : list A) : list A :=
  match l, pos with
  | [], _ => []
  | _ :: l', O => l'
  | x :: l', S p => x :: list_del_at p l'
  end.

(** [sub in s] on strings. *)
Fixpoint str_contains (sub s : string) : bool :=
  String.prefix sub s ||
  match s with
  | EmptyString => false
  | String _ s' => str_contains sub s'
  end.

(** ** Models and cache records *)

(** A [torch.device]; only equality of devices is used. *)
Definition Device : Type := string.

(** What the cache looks at in a model object: whether it has a [to] method
    and, when it has a [device] attribute, its value. *)
Record ModelObj : Type := mkModelObj {
  has_to : bool;
  device : option Device;
}.

(** [hasattr(model, "to")]; [model] may be Python's [None], which has no
    such attribute. *)
Definition hasattr_to (m : option ModelObj) : bool :=
  match m with Some o => has_to o | None => false end.

Record _CacheRecord : Type := mk_CacheRecord {
  size : Z;
  model : option ModelObj;
  _locks : Z;
}.

Definition set_locks (r : _CacheRecord) (n : Z) : _CacheRecord :=
  {| size := size r; model := model r; _locks := n |}.

Definition set_model (r : _CacheRecord) (m : option ModelObj) : _CacheRecord :=
  {| size := size r; model := m; _locks := _locks r |}.

(** [_CacheRecord.__init__] *)
Definition new_CacheRecord (m : option ModelObj) (sz : Z) : _CacheRecord :=
  {| size := sz; model := m; _locks := 0 |}.

(** [_CacheRecord.locked] *)
Definition locked (r : _CacheRecord) : bool := 0 <? _locks r.

(** [_CacheRecord.loaded], given the cache's [storage_device]. *)
Definition loaded (storage_device : Device) (r : _CacheRecord) : bool :=
  match model r with
  | Some o =>
      match device o with
      | Some d => negb (String.eqb d storage_device)
      | None => false
      end
  | None => false
  end.

(** ** Statistics, provider, configuration *)

Record CacheStats : Type := mkCacheStats {
  hits : Z;
  misses : Z;
  high_watermark : Z;
  in_cache : Z;
  cleared : Z;
  cache_size : Q;
  loaded_model_sizes : dict Z;
}.

(** The provider object built by [model_class(model_path, base_model,
    model_type)]: the size it reports for a submodel and what loading a
    submodel gives, [None] when the load raises.  [get_size] is taken to
    return: of the provider's exceptions only those of the load are
    modelled. *)
Record ModelBase : Type := mkModelBase {
  info_get_size : option string -> Z;
  info_get_model : option string -> option (option ModelObj);
}.

(** The attributes that [ModelCache.__init__] fixes for the life of the
    cache. *)
Record Config : Type := mkConfig {
  lazy_offloading : bool;
  max_cache_size : Q;
  max_vram_cache_size : Q;
  execution_device : Device;
  storage_device : Device;
}.

(** [a > b] on the rationals. *)
Definition Qgtb (a b : Q) : bool := negb (Qle_bool a b).

(** [ModelCache.__init__]: lazy offloading is allowed only when the VRAM
    cache is enabled. *)
Definition ModelCache_init (max_cache_size_ max_vram_cache_size_ : Q)
    (execution_device_ storage_device_ : Device) (lazy_offloading_ : bool)
    : Config :=
  {| lazy_offloading := lazy_offloading_ && Qgtb max_vram_cache_size_ 0;
     max_cache_size := max_cache_size_;
     max_vram_cache_size := max_vram_cache_size_;
     execution_device := execution_device_;
     storage_device := storage_device_ |}.

(** What the runtime answers during one call into the cache:
    [os.path.exists], [sys.getrefcount] of the model cached under a key, and
    the outcome of the n-th tier transfer [model.to(...)]: whether it
    returns, and by how much [torch.cuda.memory_allocated()] changes. *)
Record ToOutcome : Type := mkToOutcome {
  to_ok : bool;
  to_delta : Z;
}.

Record Runtime : Type := mkRuntime {
  path_exists : string -> bool;
  getrefcount : string -> Z;
  to_outcome : nat -> ToOutcome;
}.

(** One call of [model.to(target)], as the log keeps it: the record whose
    model was moved, the target, and the VRAM in use just before. *)
Record ToCall : Type := mkToCall {
  call_rid : nat;
  call_target : Device;
  call_vram : Z;
}.

(** ** The state

    The mutable attributes of the cache ([model_infos], [stats],
    [_cached_models], [_cache_stack]), the store of [_CacheRecord] objects
    ([heap]; the dictionary and the lockers hold addresses into it), the
    value of [torch.cuda.memory_allocated()] ([vram]) and the log of the
    transfers done so far. *)
Record State : Type := mkState {
  model_infos : dict ModelBase;
  stats : option CacheStats;
  _cached_models : dict nat;
  _cache_stack : list string;
  heap : list _CacheRecord;
  vram : Z;
  to_log : list ToCall;
}.

Definition set_model_infos (s : State) (x : dict ModelBase) : State :=
  mkState x (stats s) (_cached_models s) (_cache_stack s) (heap s) (vram s) (to_log s).
Definition set_stats (s : State) (x : option CacheStats) : State :=
  mkState (model_infos s) x (_cached_models s) (_cache_stack s) (heap s) (vram s) (to_log s).
Definition set_cached_models (s : State) (x : dict nat) : State :=
  mkState (model_infos s) (stats s) x (_cache_stack s) (heap s) (vram s) (to_log s).
Definition set_cache_stack (s : State) (x : list string) : State :=
  mkState (model_infos s) (stats s) (_cached_models s) x (heap s) (vram s) (to_log s).
Definition set_heap (s : State) (x : list _CacheRecord) : State :=
  mkState (model_infos s) (stats s) (_cached_models s) (_cache_stack s) x (vram s) (to_log s).

(** The state of a cache just built: [stats] is [None], both containers are
    empty. *)
Definition init_state (vram0 : Z) : State :=
  mkState [] None [] [] [] vram0 [].

(** ** Exceptions and the monad *)

Inductive Exc : Type :=
  | ModelNotFound      (* raise Exception("Model not found: ...") *)
  | LoadError          (* the provider's get_model raised *)
  | TransferError      (* model.to(...) raised *)
  | AttributeError     (* an attribute the object does not have *)
  | AssertionError     (* assert self._locks >= 0 *)
  | KeyError           (* a key absent from a dictionary *)
  | ReferenceError     (* an address outside the object store *)
  | Diverged.          (* the bound on the iterations of a loop was reached *)

Inductive Res (A : Type) : Type :=
  | Ok (a : A)
  | Raise (e : Exc).
Arguments Ok {A} a.
Arguments Raise {A} e.

Definition M (A : Type) : Type := State -> State * Res A.

Definition ret {A} (a : A) : M A := fun s => (s, Ok a).
Definition raise {A} (e : Exc) : M A := fun s => (s, Raise e).
Definition bind {A B} (m : M A) (k : A -> M B) : M B :=
  fun s => match m s with
           | (s', Ok a) => k a s'
           | (s', Raise e) => (s', Raise e)
           end.
Definition get : M State := fun s => (s, Ok s).
Definition modify (f : State -> State) : M unit := fun s => (f s, Ok tt).

(** [try: body except Exception: handler; raise] *)
Definition try_except_reraise {A} (body : M A) (handler : M unit) : M A :=
  fun s => match body s with
           | (s', Ok a) => (s', Ok a)
           | (s', Raise e) =>
               match handler s' with
               | (s'', Ok _) => (s'', Raise e)
               | (s'', Raise e') => (s'', Raise e')
               end
           end.

Declare Scope cache_scope.
Delimit Scope cache_scope with cache.
Notation "x <- c1 ;; c2" := (bind c1 (fun x => c2))
  (at level 100, c1 at next level, right associativity) : cache_scope.
Notation "c1 ;; c2" := (bind c1 (fun _ => c2))
  (at level 100, right associativity) : cache_scope.
Local Open Scope cache_scope.

(** Reading and writing a record of the store. *)
Definition deref (rid : nat) : M _CacheRecord :=
  fun s => match heap s !! rid with
           | Some r => (s, Ok r)
           | None => (s, Raise ReferenceError)
           end.

Definition store (rid : nat) (r : _CacheRecord) : M unit :=
  modify (fun s => set_heap s (<[rid:=r]> (heap s))).

(** [_CacheRecord.lock] *)
Definition lock (rid : nat) : M unit :=
  r <- deref rid ;;
  store rid (set_locks r (_locks r + 1)).

(** [_CacheRecord.unlock]: the count is decremented, then asserted to be
    non-negative. *)
Definition unlock (rid : nat) : M unit :=
  r <- deref rid ;;
  store rid (set_locks r (_locks r - 1)) ;;
  r' <- deref rid ;;
  if 0 <=? _locks r' then ret tt else raise AssertionError.

(** ** The cache *)

(** [sum([m.size for m in self._cached_models.values()])] over the store. *)
Fixpoint sum_sizes (h : list _CacheRecord) (rids : list nat) : option Z :=
  match rids with
  | [] => Some 0
  | rid :: rids' =>
      match h !! rid, sum_sizes h rids' with
      | Some r, Some z => Some (size r + z)
      | _, _ => None
      end
  end.

(** [sorted(l, key=...)]: a stable sort, ascending in the key. *)
Fixpoint insert_by {A} (key : A -> Z) (x : A) (l : list A) : list A :=
  match l with
  | [] => [x]
  | y :: l' => if key x <=? key y then x :: y :: l' else y :: insert_by key x l'
  end.

Definition sorted_by {A} (key : A -> Z) (l : list A) : list A :=
  foldr (insert_by key) [] l.

(** Python's truth value of an integer. *)
Definition truthy (z : Z) : bool := negb (z =? 0).

(** The test of [_make_cache_room] that decides an eviction,
    [not cache_entry.locked and refs <= 3 if "onnx" in model_key else 2]:
    a conditional expression binds weaker than [and], so the test is
    [(not cache_entry.locked and refs <= 3) if "onnx" in model_key else 2]. *)
Definition evict_test (model_key : string) (cache_entry : _CacheRecord)
    (refs : Z) : bool :=
  if str_contains "onnx" model_key
  then negb (locked cache_entry) && (refs <=? 3)
  else truthy 2.

(** [ModelCache.get_key] *)
Definition get_key (model_path : string) (submodel_type : option string)
    : string :=
  match submodel_type with
  | Some t => if String.eqb t "" then model_path
              else (model_path ++ ":" ++ t)%string
  | None => model_path
  end.

(** [stats.f += 1]-like updates, done only when [self.stats] is set. *)
Definition update_stats (f : CacheStats -> CacheStats) : M unit :=
  modify (fun s => set_stats s (f <$> stats s)).

Definition incr_hits (st : CacheStats) : CacheStats :=
  mkCacheStats (hits st + 1) (misses st) (high_watermark st) (in_cache st)
    (cleared st) (cache_size st) (loaded_model_sizes st).
Definition incr_misses (st : CacheStats) : CacheStats :=
  mkCacheStats (hits st) (misses st + 1) (high_watermark st) (in_cache st)
    (cleared st) (cache_size st) (loaded_model_sizes st).
Definition incr_cleared (st : CacheStats) : CacheStats :=
  mkCacheStats (hits st) (misses st) (high_watermark st) (in_cache st)
    (cleared st + 1) (cache_size st) (loaded_model_sizes st).

(** The context manager returned by [get_model].  [lk_model] and
    [cache_entry] are addresses: the model is the one held by the record at
    [lk_model]. *)
Record ModelLocker : Type := mkModelLocker {
  gpu_load : bool;
  key : string;
  lk_model : nat;
  size_needed : Z;
  cache_entry : nat;
}.

Section Cache.

Variable cfg : Config.
Variable rt : Runtime.

(** [ModelCache._cache_size] *)
Definition _cache_size : M Z :=
  fun s => match sum_sizes (heap s) (dict_values (_cached_models s)) with
           | Some z => (s, Ok z)
           | None => (s, Raise ReferenceError)
           end.

(** [model.to(target)] on the model of the record at [rid].  The runtime
    decides whether the call returns and how the VRAM in use changes; when it
    returns, the model reports [target] as its device. *)
Definition model_to (rid : nat) (target : Device) : M unit :=
  r <- deref rid ;;
  match model r with
  | Some o =>
      if has_to o then
        s <- get ;;
        let out := to_outcome rt (length (to_log s)) in
        modify (fun s =>
          mkState (model_infos s) (stats s) (_cached_models s) (_cache_stack s)
            (heap s) (vram s + to_delta out)
            (to_log s ++ [mkToCall rid target (vram s)])) ;;
        if to_ok out
        then store rid (set_model r
               (Some (mkModelObj (has_to o) ((fun _ => target) <$> device o))))
        else raise TransferError
      else raise AttributeError
  | None => raise AttributeError
  end.

(** [with VRAMUsage() as mem: body], giving [mem.vram_used]. *)
Definition with_VRAMUsage (body : M unit) : M Z :=
  s0 <- get ;;
  body ;;
  s1 <- get ;;
  ret (vram s1 - vram s0).

(** The [while] loop of [_make_cache_room] over the stack.  Every
    iteration deletes an entry of the stack or moves [pos] forward; [fuel]
    bounds their number.  [refs] is read before the stale frames are
    cleared, and the test uses that value.  The nested [while True] loop
    that clears the frames (lines 352-367) reads and writes nothing of the
    cache and is not modelled: whether it ends is a matter of the garbage
    collector, about which nothing is stated here. *)
Fixpoint make_room_loop (fuel : nat) (bytes_needed : Z) (maximum_size : Q)
    (current_size : Z) (pos : nat) : M unit :=
  match fuel with
  | O => raise Diverged
  | S fuel' =>
      s <- get ;;
      if Qgtb (inject_Z (current_size + bytes_needed)) maximum_size
         && (pos <? length (_cache_stack s))%nat
      then
        match _cache_stack s !! pos with
        | None => raise KeyError
        | Some model_key =>
            match dict_get (_cached_models s) model_key with
            | None => raise KeyError
            | Some rid =>
                cache_entry <- deref rid ;;
                let refs := getrefcount rt model_key in
                if evict_test model_key cache_entry refs then
                  update_stats incr_cleared ;;
                  modify (fun s =>
                    set_cache_stack s (list_del_at pos (_cache_stack s))) ;;
                  modify (fun s =>
                    set_cached_models s (dict_del (_cached_models s) model_key)) ;;
                  make_room_loop fuel' bytes_needed maximum_size
                    (current_size - size cache_entry) pos
                else
                  make_room_loop fuel' bytes_needed maximum_size
                    current_size (pos + 1)
            end
        end
      else ret tt
  end.

(** [ModelCache._make_cache_room] *)
Definition _make_cache_room (model_size : Z) : M unit :=
  let bytes_needed := model_size in
  let maximum_size := (max_cache_size cfg * inject_Z GIG)%Q in
  current_size <- _cache_size ;;
  s <- get ;;
  make_room_loop (S (length (_cache_stack s))) bytes_needed maximum_size
    current_size 0.

(** The [for] loop of [_offload_unlocked_models] over the sorted items. *)
Fixpoint offload_loop (reserved : Q) (items : list (string * nat))
    (vram_in_use : Z) : M unit :=
  match items with
  | [] => ret tt
  | (model_key, rid) :: items' =>
      if Qle_bool (inject_Z vram_in_use) reserved then ret tt
      else
        cache_entry <- deref rid ;;
        if negb (locked cache_entry) && loaded (storage_device cfg) cache_entry
        then
          vram_used <- with_VRAMUsage (model_to rid (storage_device cfg)) ;;
          offload_loop reserved items' (vram_in_use + vram_used)
        else offload_loop reserved items' vram_in_use
  end.

(** The size of the record at an address, and the key of the sort,
    [lambda x: x[1].size]. *)
Definition record_size (h : list _CacheRecord) (rid : nat) : Z :=
  match h !! rid with
  | Some r => size r
  | None => 0
  end.

Definition size_at (h : list _CacheRecord) (x : string * nat) : Z :=
  record_size h x.2.

(** [ModelCache._offload_unlocked_models]; [size_needed] is not used by the
    body. *)
Definition _offload_unlocked_models (size_needed : Z) : M unit :=
  let reserved := (max_vram_cache_size cfg * inject_Z GIG)%Q in
  s <- get ;;
  let vram_in_use := vram s in
  if forallb (fun x => bool_decide (is_Some (heap s !! x.2))) (_cached_models s)
  then offload_loop reserved (sorted_by (size_at (heap s)) (_cached_models s))
         vram_in_use
  else raise ReferenceError.

(** [ModelCache._get_model_info]: the descriptor of a model path is built
    once and kept.  [model_class] stands for the object that the call
    [model_class(model_path, base_model, model_type)] gives: the call is
    taken to return. *)
Definition _get_model_info (model_path : string) (model_class : ModelBase)
    : M ModelBase :=
  let model_info_key := get_key model_path None in
  s <- get ;;
  match dict_get (model_infos s) model_info_key with
  | Some info => ret info
  | None =>
      modify (fun s =>
        set_model_infos s (dict_set (model_infos s) model_info_key model_class)) ;;
      ret model_class
  end.

(** [ModelLocker.__init__] *)
Definition ModelLocker_init (key_ : string) (model_ : nat) (gpu_load_ : bool)
    (size_needed_ : Z) : M ModelLocker :=
  s <- get ;;
  match dict_get (_cached_models s) key_ with
  | Some rid => ret (mkModelLocker gpu_load_ key_ model_ size_needed_ rid)
  | None => raise KeyError
  end.

(** The statistics block of [get_model]. *)
Definition record_stats (key_ : string) (info_size : Z) : M unit :=
  s <- get ;;
  match stats s with
  | None => ret tt
  | Some _ =>
      total <- _cache_size ;;
      update_stats (fun st =>
        mkCacheStats (hits st) (misses st)
          (Z.max (high_watermark st) total)
          (Z.of_nat (length (_cached_models s)))
          (cleared st)
          (max_cache_size cfg * inject_Z GIG)%Q
          (dict_set (loaded_model_sizes st) key_
             (Z.max (default 0 (dict_get (loaded_model_sizes st) key_))
                    info_size)))
  end.

(** [ModelCache.get_model] *)
Definition get_model (model_path : string) (model_class : ModelBase)
    (submodel : option string) (gpu_load_ : bool) : M ModelLocker :=
  if negb (path_exists rt model_path) then raise ModelNotFound
  else
    model_info <- _get_model_info model_path model_class ;;
    let key_ := get_key model_path submodel in
    s <- get ;;
    rid <- match dict_get (_cached_models s) key_ with
           | None =>
               update_stats incr_misses ;;
               _make_cache_room (info_get_size model_info submodel) ;;
               match info_get_model model_info submodel with
               | None => raise LoadError
               | Some model_ =>
                   let mem_used := info_get_size model_info submodel in
                   s1 <- get ;;
                   let rid := length (heap s1) in
                   modify (fun s =>
                     set_heap s (heap s ++ [new_CacheRecord model_ mem_used])) ;;
                   modify (fun s =>
                     set_cached_models s (dict_set (_cached_models s) key_ rid)) ;;
                   ret rid
               end
           | Some rid => update_stats incr_hits ;; ret rid
           end ;;
    record_stats key_ (info_get_size model_info submodel) ;;
    modify (fun s =>
      set_cache_stack s (default (_cache_stack s)
                           (list_remove key_ (_cache_stack s)))) ;;
    modify (fun s => set_cache_stack s (_cache_stack s ++ [key_])) ;;
    cache_entry_ <- deref rid ;;
    ModelLocker_init key_ rid gpu_load_ (size cache_entry_).

(** [self.model.device], an [AttributeError] when the model has none. *)
Definition model_device (rid : nat) : M Device :=
  r <- deref rid ;;
  match model r with
  | Some o =>
      match device o with
      | Some d => ret d
      | None => raise AttributeError
      end
  | None => raise AttributeError
  end.

(** The body of the [try] of [ModelLocker.__enter__]: the lazy offload,
    then the move into the execution device when the model is not there. *)
Definition promote (L : ModelLocker) : M unit :=
  (if lazy_offloading cfg
   then _offload_unlocked_models (size_needed L)
   else ret tt) ;;
  d <- model_device (lk_model L) ;;
  if negb (String.eqb d (execution_device cfg))
  then _ <- with_VRAMUsage (model_to (lk_model L) (execution_device cfg)) ;;
       ret tt
  else ret tt.

(** [ModelLocker.__enter__]; the result is the address of the model. *)
Definition __enter__ (L : ModelLocker) : M nat :=
  m <- deref (lk_model L) ;;
  if negb (hasattr_to (model m)) then ret (lk_model L)
  else if gpu_load L then
    lock (cache_entry L) ;;
    try_except_reraise (promote L) (unlock (cache_entry L)) ;;
    ret (lk_model L)
  else
    ce <- deref (cache_entry L) ;;
    (if loaded (storage_device cfg) ce && negb (locked ce)
     then model_to (lk_model L) (storage_device cfg)
     else ret tt) ;;
    ret (lk_model L).

(** [ModelLocker.__exit__] *)
Definition __exit__ (L : ModelLocker) : M unit :=
  m <- deref (lk_model L) ;;
  if negb (hasattr_to (model m)) then ret tt
  else
    unlock (cache_entry L) ;;
    if negb (lazy_offloading cfg)
    then _offload_unlocked_models 0
    else ret tt.

(** [ModelCache.uncache_model] *)
Definition uncache_model (cache_id : string) : M unit :=
  modify (fun s =>
    set_cache_stack s (default (_cache_stack s)
                         (list_remove cache_id (_cache_stack s)))) ;;
  modify (fun s =>
    set_cached_models s (dict_del (_cached_models s) cache_id)).

End Cache.

(** ** Predicates on states *)

(** The lock count of the record at an address. *)
Definition locks_at (s : State) (rid : nat) : option Z :=
  _locks <$> heap s !! rid.

(** Every record has the same lock count in the two states. *)
Definition same_locks (s s' : State) : Prop :=
  forall rid, locks_at s' rid = locks_at s rid.

(** The invariant of the registry: the LRU stack has no duplicate and holds
    exactly the keys of the dictionary; the dictionary has each key once, and
    its records are distinct objects of the store. *)
Record wf (s : State) : Prop := mk_wf {
  wf_stack_nodup : NoDup (_cache_stack s);
  wf_keys_nodup : NoDup (dict_keys (_cached_models s));
  wf_same_keys : forall k, k ∈ _cache_stack s <-> k ∈ dict_keys (_cached_models s);
  wf_values_nodup : NoDup (dict_values (_cached_models s));
  wf_values_valid :
    forall rid, rid ∈ dict_values (_cached_models s) -> is_Some (heap s !! rid);
}.

(** What the eviction test of [_make_cache_room] answers for a key of the
    stack, in a state. *)
Definition evictable (rt : Runtime) (s : State) (k : string) : bool :=
  match dict_get (_cached_models s) k with
  | Some rid =>
      match heap s !! rid with
      | Some r => evict_test k r (getrefcount rt k)
      | None => false
      end
  | None => false
  end.

(** The total size of the cached records, when every one is in the store. *)
Definition total_size (s : State) : option Z :=
  sum_sizes (heap s) (dict_values (_cached_models s)).

(** The state after the eviction of the key at [pos] of the stack. *)
Definition evict_state (pos : nat) (k : string) (s : State) : State :=
  set_cached_models
    (set_cache_stack (set_stats s (incr_cleared <$> stats s))
       (list_del_at pos (_cache_stack s)))
    (dict_del (_cached_models s) k).

(** Nothing but the statistics and the descriptors differ between the two
    states. *)
Definition same_registry (s s' : State) : Prop :=
  _cache_stack s' = _cache_stack s /\
  _cached_models s' = _cached_models s /\
  heap s' = heap s /\ vram s' = vram s /\ to_log s' = to_log s.

(** The steps of a miss of [get_model] that come before the provider's
    load. *)
Definition before_load (cfg : Config) (rt : Runtime) (model_path : string)
    (model_class : ModelBase) (submodel : option string) : M unit :=
  model_info <- _get_model_info model_path model_class ;;
  update_stats incr_misses ;;
  _make_cache_room cfg rt (info_get_size model_info submodel).

(** What holds of a transfer made by [_offload_unlocked_models] from the
    state [s]: it moves to the storage device a record that was unlocked and
    loaded in [s], at a moment when the VRAM in use exceeded the reserve. *)
Definition offload_call_ok (cfg : Config) (reserved : Q) (s : State)
    (c : ToCall) : Prop :=
  call_target c = storage_device cfg /\
  Qle_bool (inject_Z (call_vram c)) reserved = false /\
  exists r, heap s !! call_rid c = Some r /\
            locked r = false /\ loaded (storage_device cfg) r = true.

(** ** Concrete states *)

Definition ex_cfg : Config :=
  ModelCache_init DEFAULT_MAX_CACHE_SIZE DEFAULT_MAX_VRAM_CACHE_SIZE
    "cuda" "cpu" true.

Definition ex_cfg_eager : Config :=
  ModelCache_init DEFAULT_MAX_CACHE_SIZE DEFAULT_MAX_VRAM_CACHE_SIZE
    "cuda" "cpu" false.

(** Every path exists, every model has two references, every transfer
    returns and frees or takes nothing. *)
Definition ex_rt : Runtime :=
  mkRuntime (fun _ => true) (fun _ => 2) (fun _ => mkToOutcome true 0).


Definition ex_torch (d : Device) : ModelObj := mkModelObj true (Some d).

(** A cache holding one 4 GiB model under the key [sd15], on device [d],
    with [n] locks. *)
Definition ex_one (d : Device) (n : Z) : State :=
  mkState [] None [("sd15", 0%nat)] ["sd15"]
    [mk_CacheRecord (4 * GIG) (Some (ex_torch d)) n] 0 [].

Definition ex_locker (gpu : bool) : ModelLocker :=
  mkModelLocker gpu "sd15" 0 (4 * GIG) 0.

(** A cache holding one object without a [to] method. *)
Definition ex_plain : State :=
  mkState [] None [("vae", 0%nat)] ["vae"]
    [mk_CacheRecord 10 (Some (mkModelObj false None)) 0] 0 [].

(** A provider whose models take 4 GiB and load on the storage device, and
    one whose load raises. *)
Definition ex_provider : ModelBase :=
  mkModelBase (fun _ => 4 * GIG) (fun _ => Some (Some (ex_torch "cpu"))).

Definition ex_provider_failing : ModelBase :=
  mkModelBase (fun _ => 4 * GIG) (fun _ => None).

(** A runtime whose transfers return and free 1 GiB. *)
Definition ex_rt_free : Runtime :=
  mkRuntime (fun _ => true) (fun _ => 2) (fun _ => mkToOutcome true (- GIG)).

(** A cache holding [unet], 4 GiB, with [n] locks, and [vae], 1 GiB,
    unlocked; both are on the execution device and 5 GiB of VRAM are in
    use. *)
Definition ex_two (n : Z) : State :=
  mkState [] None [("unet", 0%nat); ("vae", 1%nat)] ["unet"; "vae"]
    [mk_CacheRecord (4 * GIG) (Some (ex_torch "cuda")) n;
     mk_CacheRecord GIG (Some (ex_torch "cuda")) 0]
    (5 * GIG) [].

Definition ex_locker_unet : ModelLocker :=
  mkModelLocker true "unet" 0 (4 * GIG) 0.

(** A cache holding one 4 GiB model under a key that contains [onnx], with
    one lock. *)
Definition ex_onnx : State :=
  mkState [] None [("unet.onnx", 0%nat)] ["unet.onnx"]
    [mk_CacheRecord (4 * GIG) (Some (ex_torch "cuda")) 1] 0 [].

(** What a tier transfer leaves of a record: its size, its lock count and
    whether its model has a [to] method. *)
Definition record_shape (r : _CacheRecord) : Z * Z * bool :=
  (size r, _locks r, hasattr_to (model r)).

Definition same_shape (s s' : State) : Prop :=
  forall rid, record_shape <$> heap s' !! rid = record_shape <$> heap s !! rid.

(** [op] run [n] times in a row. *)
Fixpoint repeat_op (n : nat) (op : M unit) : M unit :=
  match n with
  | O => ret tt
  | S n' => op ;; repeat_op n' op
  end.

(** The lock counts of the records other than the one of the guard [L] are
    the same in the two states. *)
Definition others_kept (L : ModelLocker) (s s' : State) : Prop :=
  forall rid, rid <> cache_entry L -> locks_at s' rid = locks_at s rid.

(** The cache of [ex_one], unlocked and on the storage device, with the
    statistics switched on. *)
Definition ex_one_stats : State :=
  mkState [] (Some (mkCacheStats 0 0 0 1 0 (6 * inject_Z GIG)%Q []))
    [("sd15", 0%nat)] ["sd15"]
    [mk_CacheRecord (4 * GIG) (Some (ex_torch "cpu")) 0] 0 [].

(** An item of the dictionary is a candidate of [_offload_unlocked_models]
    in a state when its record is unlocked and loaded,
    [not cache_entry.locked and cache_entry.loaded]. *)
Definition candidate (cfg : Config) (s : State) (x : string * nat) : bool :=
  match heap s !! x.2 with
  | Some r => negb (locked r) && loaded (storage_device cfg) r
  | None => false
  end.

(** * Properties *)

Ltac munfold :=
  unfold bind, ret, raise, get, modify, deref, store, update_stats in *;
  simpl in *.

(** ** Lock counts *)

Lemma same_locks_refl s : same_locks s s.
Proof. intros rid. reflexivity. Qed.

Lemma same_locks_trans s1 s2 s3 :
  same_locks s1 s2 -> same_locks s2 s3 -> same_locks s1 s3.
Proof. intros H12 H23 rid. rewrite H23. apply H12. Qed.

Lemma locks_at_insert (h : list _CacheRecord) rid r r' rid' :
  h !! rid = Some r -> _locks r' = _locks r ->
  _locks <$> (<[rid:=r']> h) !! rid' = _locks <$> h !! rid'.
Proof.
  intros Hr Hl. destruct (decide (rid = rid')) as [->|Hne].
  - rewrite list_lookup_insert_eq; [|by eapply lookup_lt_Some].
    rewrite Hr. simpl. congruence.
  - by rewrite list_lookup_insert_ne.
Qed.

Lemma lock_spec rid s r :
  heap s !! rid = Some r ->
  lock rid s =
    (set_heap s (<[rid:=set_locks r (_locks r + 1)]> (heap s)), Ok tt).
Proof. intros Hr. unfold lock. munfold. by rewrite Hr. Qed.

Lemma unlock_spec rid s r :
  heap s !! rid = Some r ->
  unlock rid s =
    (set_heap s (<[rid:=set_locks r (_locks r - 1)]> (heap s)),
     if 0 <=? _locks r - 1 then Ok tt else Raise AssertionError).
Proof.
  intros Hr. unfold unlock. munfold. rewrite Hr. simpl.
  rewrite list_lookup_insert_eq; [|by eapply lookup_lt_Some]. simpl.
  by destruct (0 <=? _locks r - 1).
Qed.

Lemma locks_at_set_heap_insert s rid r n :
  heap s !! rid = Some r ->
  locks_at (set_heap s (<[rid:=set_locks r n]> (heap s))) rid = Some n.
Proof.
  intros Hr. unfold locks_at. simpl.
  rewrite list_lookup_insert_eq; [done|by eapply lookup_lt_Some].
Qed.

Section LockFrame.

Variable cfg : Config.
Variable rt : Runtime.

Lemma model_to_same_locks rid target s s' res :
  model_to rt rid target s = (s', res) -> same_locks s s'.
Proof.
  unfold model_to. munfold.
  destruct (heap s !! rid) as [r|] eqn:Hr; [|intros [= <- _]; apply same_locks_refl].
  destruct (model r) as [o|]; [|intros [= <- _]; apply same_locks_refl].
  destruct (has_to o); [|intros [= <- _]; apply same_locks_refl].
  destruct (to_ok _); intros [= <- _]; intros rid'; unfold locks_at; simpl;
    [|done].
  by eapply locks_at_insert.
Qed.

Lemma with_VRAMUsage_inv body s s' res :
  with_VRAMUsage body s = (s', res) ->
  (body s = (s', Ok tt) /\ res = Ok (vram s' - vram s)) \/
  (exists e, body s = (s', Raise e) /\ res = Raise e).
Proof.
  unfold with_VRAMUsage. munfold.
  destruct (body s) as [s1 [[]|e]]; intros [= <- <-]; eauto.
Qed.

Lemma offload_loop_same_locks reserved items : forall vram_in_use s s' res,
  offload_loop cfg rt reserved items vram_in_use s = (s', res) ->
  same_locks s s'.
Proof.
  induction items as [|[k rid] items IH]; intros v s s' res; simpl.
  - intros [= <- _]. apply same_locks_refl.
  - destruct (Qle_bool _ _); [intros [= <- _]; apply same_locks_refl|].
    munfold.
    destruct (heap s !! rid) as [r|] eqn:Hr; [|intros [= <- _]; apply same_locks_refl].
    destruct (negb (locked r) && loaded (storage_device cfg) r); [|by apply IH].
    destruct (with_VRAMUsage _ s) as [s1 [z|e]] eqn:Hw.
    + intros Hrest. apply IH in Hrest.
      apply with_VRAMUsage_inv in Hw as [[Hb _]|(e & _ & [=])].
      apply model_to_same_locks in Hb. by eapply same_locks_trans.
    + intros [= <- _].
      apply with_VRAMUsage_inv in Hw as [[_ [=]]|(e' & Hb & _)].
      by apply model_to_same_locks in Hb.
Qed.

Lemma offload_same_locks n s s' res :
  _offload_unlocked_models cfg rt n s = (s', res) -> same_locks s s'.
Proof.
  unfold _offload_unlocked_models. munfold.
  destruct (forallb _ _); [apply offload_loop_same_locks|].
  intros [= <- _]. apply same_locks_refl.
Qed.

Lemma promote_same_locks L s s' res :
  promote cfg rt L s = (s', res) -> same_locks s s'.
Proof.
  unfold promote, model_device. munfold.
  assert (Hoff : exists s1 res1,
    (if lazy_offloading cfg then _offload_unlocked_models cfg rt (size_needed L)
     else fun s => (s, Ok tt)) s = (s1, res1) /\ same_locks s s1).
  { destruct (lazy_offloading cfg).
    - destruct (_offload_unlocked_models cfg rt (size_needed L) s) as [s1 r1] eqn:Ho.
      exists s1, r1. split; [done|]. by eapply offload_same_locks.
    - exists s, (Ok tt). split; [done|apply same_locks_refl]. }
  destruct Hoff as (s1 & res1 & -> & Hs1).
  destruct res1 as [[]|e]; [|by intros [= <- _]].
  destruct (heap s1 !! lk_model L) as [r|]; [|by intros [= <- _]].
  destruct (model r) as [o|]; [|by intros [= <- _]].
  destruct (device o) as [d|]; [|by intros [= <- _]].
  destruct (negb _); [|by intros [= <- _]].
  destruct (with_VRAMUsage _ s1) as [s2 [z|e]] eqn:Hw; intros [= <- _].
  - apply with_VRAMUsage_inv in Hw as [[Hb _]|(e & _ & [=])].
    apply model_to_same_locks in Hb. by eapply same_locks_trans.
  - apply with_VRAMUsage_inv in Hw as [[_ [=]]|(e' & Hb & _)].
    apply model_to_same_locks in Hb. by eapply same_locks_trans.
Qed.

End LockFrame.

(** ** [lock] and [unlock] *)

(** C3 (as amended): for a record whose lock count is 0, [lock] then
    [unlock] returns and leaves the count at 0; [unlock] alone raises the
    assertion error, and does so after the decrement: the record is left
    with a count of -1. *)
Theorem lock_unlock_pairing (s : State) (rid : nat) (r : _CacheRecord) :
  heap s !! rid = Some r -> _locks r = 0 ->
  (exists s', (lock rid ;; unlock rid) s = (s', Ok tt)
              /\ locks_at s' rid = Some 0) /\
  (exists s', unlock rid s = (s', Raise AssertionError)
              /\ locks_at s' rid = Some (-1)).
Proof.
  intros Hr H0. split.
  - unfold bind. rewrite (lock_spec _ _ _ Hr).
    set (s1 := set_heap s _).
    assert (Hr1 : heap s1 !! rid = Some (set_locks r (_locks r + 1))).
    { subst s1. simpl. rewrite list_lookup_insert_eq; [done|].
      by eapply lookup_lt_Some. }
    rewrite (unlock_spec _ _ _ Hr1).
    eexists. split.
    + f_equal. simpl. by rewrite H0.
    + rewrite (locks_at_set_heap_insert _ _ _ _ Hr1). simpl. f_equal. lia.
  - rewrite (unlock_spec _ _ _ Hr).
    eexists. split.
    + f_equal. by rewrite H0.
    + rewrite (locks_at_set_heap_insert _ _ _ _ Hr). f_equal. lia.
Qed.

Lemma lock_unlock_pairing_witness :
  (exists s', (lock 0 ;; unlock 0) (ex_one "cpu" 0) = (s', Ok tt)
              /\ locks_at s' 0 = Some 0) /\
  (exists s', unlock 0 (ex_one "cpu" 0) = (s', Raise AssertionError)
              /\ locks_at s' 0 = Some (-1)).
Proof.
  apply (lock_unlock_pairing (ex_one "cpu" 0) 0
           (mk_CacheRecord (4 * GIG) (Some (ex_torch "cpu")) 0));
    reflexivity.
Defined.

(** C3, the counterexample: after [unlock] on a record with no lock, the
    count kept by the record is negative. *)
Lemma unlock_at_zero_goes_negative :
  ~ (forall c, locks_at (unlock 0 (ex_one "cpu" 0)).1 0 = Some c -> 0 <= c).
Proof. intros H. specialize (H (-1) eq_refl). lia. Qed.

(** ** Objects without a [to] method *)

(** C10: when the cached object has no [to] method, [__enter__] returns it
    and [__exit__] returns, whatever [gpu_load] is, and neither changes the
    state: no lock is taken or released, no transfer is made. *)
Theorem locker_without_to_is_inert (cfg : Config) (rt : Runtime)
    (L : ModelLocker) (s : State) (r : _CacheRecord) :
  heap s !! lk_model L = Some r ->
  hasattr_to (model r) = false ->
  __enter__ cfg rt L s = (s, Ok (lk_model L)) /\
  __exit__ cfg rt L s = (s, Ok tt).
Proof.
  intros Hr Hto. unfold __enter__, __exit__. munfold.
  rewrite Hr, Hto. by simpl.
Qed.

Lemma locker_without_to_is_inert_witness :
  __enter__ ex_cfg ex_rt (mkModelLocker true "vae" 0 10 0) ex_plain
    = (ex_plain, Ok 0%nat) /\
  __exit__ ex_cfg ex_rt (mkModelLocker true "vae" 0 10 0) ex_plain
    = (ex_plain, Ok tt).
Proof.
  apply (locker_without_to_is_inert ex_cfg ex_rt
           (mkModelLocker true "vae" 0 10 0) ex_plain
           (mk_CacheRecord 10 (Some (mkModelObj false None)) 0));
    reflexivity.
Defined.

(** ** A failed acquisition *)



(** ** Evaluations of the eviction test and of the guard *)

(** C1 (the code at a failing input): a cache of 6 GB holds [sd15], 4 GiB,
    with one lock.  A request for another model of 4 GiB evicts it: its key
    contains no [onnx], so the eviction test is the constant 2, whatever the
    lock count; under a key that contains [onnx] the same record is kept. *)
Theorem locked_entry_is_evicted :
  locks_at (ex_one "cuda" 1) 0 = Some 1 /\
  evictable ex_rt (ex_one "cuda" 1) "sd15" = true /\
  (let s' := (get_model ex_cfg ex_rt "sdxl" ex_provider None true
                (ex_one "cuda" 1)).1 in
   dict_get (_cached_models s') "sd15" = None /\
   _cache_stack s' = ["sdxl"]) /\
  (let s' := (_make_cache_room ex_cfg ex_rt (4 * GIG) (ex_one "cuda" 1)).1 in
   _cached_models s' = [] /\ _cache_stack s' = []) /\
  evict_test "sd15.onnx" (mk_CacheRecord (4 * GIG) (Some (ex_torch "cuda")) 1) 2
    = false.
Proof. vm_compute. repeat split. Qed.

(** C2 (the code at a failing input): a guard made with [gpu_load] unset
    takes no lock in [__enter__], and [__exit__] calls [unlock] all the same:
    with no lock held the count goes to -1 and the assertion fails; with a
    lock held by another guard, that lock is released. *)
Theorem exit_unlocks_without_lock :
  (exists s1 s2,
     __enter__ ex_cfg ex_rt (ex_locker false) (ex_one "cpu" 0) = (s1, Ok 0%nat) /\
     locks_at s1 0 = Some 0 /\
     __exit__ ex_cfg ex_rt (ex_locker false) s1 = (s2, Raise AssertionError) /\
     locks_at s2 0 = Some (-1)) /\
  (exists s1 s2,
     __enter__ ex_cfg ex_rt (ex_locker false) (ex_one "cuda" 1) = (s1, Ok 0%nat) /\
     locks_at s1 0 = Some 1 /\
     __exit__ ex_cfg ex_rt (ex_locker false) s1 = (s2, Ok tt) /\
     locks_at s2 0 = Some 0).
Proof. split; do 2 eexists; vm_compute; repeat split. Qed.

(** ** Dictionaries and the LRU stack *)

Section Containers.

Context {V : Type}.
Implicit Types (d : dict V) (k : string) (l : list string).

Lemma dict_get_elem_of d k v : dict_get d k = Some v -> (k, v) ∈ d.
Proof.
  induction d as [|[k' v'] d IH]; simpl; [done|].
  destruct (String.eqb_spec k' k) as [->|Hne].
  - intros [= ->]. apply elem_of_cons. by left.
  - intros H. apply elem_of_cons. right. by apply IH.
Qed.

Lemma dict_get_key d k v : dict_get d k = Some v -> k ∈ dict_keys d.
Proof.
  intros H%dict_get_elem_of. apply list_elem_of_fmap. by exists (k, v).
Qed.

Lemma dict_get_value d k v : dict_get d k = Some v -> v ∈ dict_values d.
Proof.
  intros H%dict_get_elem_of. apply list_elem_of_fmap. by exists (k, v).
Qed.

Lemma dict_get_None d k : dict_get d k = None <-> k ∉ dict_keys d.
Proof.
  induction d as [|[k' v'] d IH]; simpl.
  - split; [intros _; apply not_elem_of_nil|done].
  - unfold dict_keys in *. rewrite not_elem_of_cons.
    destruct (String.eqb_spec k' k) as [->|Hne].
    + split; [done|]. by intros [? _].
    + rewrite IH. split; [intros ?; split; [congruence|done]|by intros [_ ?]].
Qed.

Lemma dict_get_is_Some d k : k ∈ dict_keys d -> is_Some (dict_get d k).
Proof.
  intros Hin. destruct (dict_get d k) eqn:Hg; [by eexists|].
  by apply dict_get_None in Hg.
Qed.

Lemma dict_del_sublist d k : dict_del d k `sublist_of` d.
Proof.
  induction d as [|[k' v'] d IH]; simpl; [done|].
  destruct (String.eqb k' k).
  - by apply sublist_cons.
  - by apply sublist_skip.
Qed.

Lemma dict_get_del_ne d k k' :
  k <> k' -> dict_get (dict_del d k) k' = dict_get d k'.
Proof.
  intros Hne. induction d as [|[k0 v0] d IH]; simpl; [done|].
  destruct (String.eqb_spec k0 k) as [->|Hne0]; simpl.
  - destruct (String.eqb_spec k k'); [done|done].
  - by rewrite IH.
Qed.

Lemma dict_keys_del d k k' :
  NoDup (dict_keys d) ->
  k' ∈ dict_keys (dict_del d k) <-> k' ∈ dict_keys d /\ k' <> k.
Proof.
  unfold dict_keys. induction d as [|[k0 v0] d IH]; simpl.
  - intros _. rewrite elem_of_nil. tauto.
  - rewrite NoDup_cons. intros [Hk0 Hnd].
    destruct (String.eqb_spec k0 k) as [->|Hne0]; simpl.
    + rewrite elem_of_cons. split.
      * intros Hin. split; [by right|]. by intros ->.
      * intros [[->|Hin] Hne]; done.
    + rewrite !elem_of_cons, (IH Hnd). split.
      * intros [->|[? ?]]; [split; [by left|done]|split; [by right|done]].
      * intros [[->|Hin] Hne]; [by left|by right].
Qed.

Lemma dict_set_fresh d k v :
  dict_get d k = None -> dict_set d k v = (d ++ [(k, v)])%list.
Proof.
  induction d as [|[k0 v0] d IH]; simpl; [done|].
  destruct (String.eqb k0 k); [done|]. intros H. by rewrite IH.
Qed.

Lemma list_remove_None l k : list_remove k l = None <-> k ∉ l.
Proof.
  induction l as [|y l IH]; simpl.
  - split; [intros _; apply not_elem_of_nil|done].
  - rewrite not_elem_of_cons.
    destruct (String.eqb_spec y k) as [->|Hne]; [split; [done|by intros [? _]]|].
    destruct (list_remove k l) eqn:Hr.
    + split; [done|]. intros [_ Hnin]. by apply IH in Hnin.
    + split; [|done]. intros _. split; [congruence|by apply IH].
Qed.

Lemma list_remove_Some l k l' :
  list_remove k l = Some l' -> NoDup l ->
  NoDup l' /\ forall x, x ∈ l' <-> x ∈ l /\ x <> k.
Proof.
  revert l'. induction l as [|y l IH]; simpl; intros l'; [done|].
  rewrite NoDup_cons. destruct (String.eqb_spec y k) as [->|Hne].
  - intros [= ->] [Hk Hnd]. split; [done|]. intros x. rewrite elem_of_cons.
    split; [intros Hin; split; [by right|by intros ->]|].
    by intros [[->|Hin] Hx].
  - destruct (list_remove k l) as [r|] eqn:Hr; [|done].
    intros [= <-] [Hy Hnd]. destruct (IH r eq_refl Hnd) as [Hndr Hin].
    split.
    + apply NoDup_cons. split; [|done]. rewrite Hin. by intros [? _].
    + intros x. rewrite !elem_of_cons, Hin. split.
      * intros [->|[? ?]]; [split; [by left|done]|split; [by right|done]].
      * intros [[->|?] ?]; [by left|by right].
Qed.

Lemma list_del_at_middle {A} (pre rest : list A) (x : A) :
  list_del_at (length pre) (pre ++ x :: rest) = (pre ++ rest)%list.
Proof. induction pre as [|y pre IH]; simpl; [done|]. by rewrite IH. Qed.

End Containers.

Lemma sum_sizes_del (h : list _CacheRecord) (d : dict nat) k rid r z :
  dict_get d k = Some rid -> h !! rid = Some r ->
  sum_sizes h (dict_values d) = Some z ->
  sum_sizes h (dict_values (dict_del d k)) = Some (z - size r).
Proof.
  intros Hg Hr. revert z. induction d as [|[k0 v0] d IH]; simpl in *; [done|].
  intros z. destruct (String.eqb_spec k0 k) as [->|Hne].
  - injection Hg as ->. rewrite Hr.
    destruct (sum_sizes h (dict_values d)) as [z0|]; [|done].
    intros [= <-]. f_equal. lia.
  - simpl. destruct (h !! v0) as [r0|]; [|done].
    destruct (sum_sizes h (dict_values d)) as [z0|]; [|done].
    intros [= <-]. rewrite (IH Hg z0 eq_refl). f_equal. lia.
Qed.

Lemma sum_sizes_is_Some (h : list _CacheRecord) (rids : list nat) :
  (forall rid, rid ∈ rids -> is_Some (h !! rid)) -> is_Some (sum_sizes h rids).
Proof.
  induction rids as [|rid rids IH]; simpl; intros Hv; [by eexists|].
  destruct (Hv rid) as [r ->]; [by left|].
  destruct IH as [z ->]; [|by eexists].
  intros rid' Hin. apply Hv. by right.
Qed.

(** ** The invariant *)

Lemma wf_total_size s : wf s -> is_Some (total_size s).
Proof. intros Hwf. apply sum_sizes_is_Some, Hwf. Qed.

Lemma wf_same_containers s s' :
  _cache_stack s' = _cache_stack s ->
  _cached_models s' = _cached_models s ->
  length (heap s') = length (heap s) ->
  wf s -> wf s'.
Proof.
  intros Hst Hd Hh [H1 H2 H3 H4 H5]. split; rewrite ?Hst, ?Hd; try done.
  intros rid Hin. apply lookup_lt_is_Some. rewrite Hh.
  apply lookup_lt_is_Some. by apply H5.
Qed.

Lemma wf_evict s s' pre k rest :
  wf s ->
  _cache_stack s = pre ++ k :: rest ->
  _cache_stack s' = pre ++ rest ->
  _cached_models s' = dict_del (_cached_models s) k ->
  heap s' = heap s ->
  wf s'.
Proof.
  intros [H1 H2 H3 H4 H5] Hst Hst' Hd' Hh'.
  rewrite Hst in H1. apply NoDup_app in H1 as (Hpre & Hdisj & Hkrest).
  apply NoDup_cons in Hkrest as [Hk Hrest].
  pose proof (dict_del_sublist (_cached_models s) k) as Hsub.
  split; rewrite ?Hst', ?Hd', ?Hh'.
  - apply NoDup_app. split; [done|]. split; [|done].
    intros x Hx Hx'. apply (Hdisj x Hx). by right.
  - eapply sublist_NoDup; [exact H2|]. by apply fmap_sublist.
  - intros k'. rewrite dict_keys_del by done. rewrite <- H3, Hst.
    rewrite !elem_of_app, elem_of_cons. split.
    + intros [Hin|Hin].
      * split; [by left|]. intros ->. apply (Hdisj k Hin). by left.
      * split; [by right; right|]. by intros ->.
    + intros [[Hin|[->|Hin]] Hne]; [by left|done|by right].
  - eapply sublist_NoDup; [exact H4|]. by apply fmap_sublist.
  - intros rid Hin. apply H5. eapply elem_of_sublist; [exact Hin|].
    by apply fmap_sublist.
Qed.

(** ** [_make_cache_room] *)

Section MakeRoom.
Variable cfg : Config.
Variable rt : Runtime.

Lemma evictable_del s s' k k' :
  _cached_models s' = dict_del (_cached_models s) k ->
  heap s' = heap s -> k <> k' ->
  evictable rt s' k' = evictable rt s k'.
Proof.
  intros Hd Hh Hne. unfold evictable. rewrite Hd, Hh.
  by rewrite dict_get_del_ne.
Qed.

Lemma make_room_loop_stop fuel n maxq cur pos s :
  Qgtb (inject_Z (cur + n)) maxq = false \/ (length (_cache_stack s) <= pos)%nat ->
  make_room_loop rt (S fuel) n maxq cur pos s = (s, Ok tt).
Proof.
  intros H. simpl. unfold bind, get, ret.
  destruct H as [->|H]; [done|].
  apply Nat.ltb_ge in H. rewrite H. by rewrite andb_false_r.
Qed.

Lemma make_room_loop_step fuel n maxq cur pos s k rid r :
  Qgtb (inject_Z (cur + n)) maxq = true ->
  _cache_stack s !! pos = Some k ->
  dict_get (_cached_models s) k = Some rid ->
  heap s !! rid = Some r ->
  make_room_loop rt (S fuel) n maxq cur pos s =
    if evict_test k r (getrefcount rt k)
    then make_room_loop rt fuel n maxq (cur - size r) pos (evict_state pos k s)
    else make_room_loop rt fuel n maxq cur (pos + 1) s.
Proof.
  intros Hq Hk Hrid Hr. simpl. unfold bind at 1. unfold get at 1.
  rewrite Hq. apply lookup_lt_Some in Hk as Hlt. apply Nat.ltb_lt in Hlt.
  rewrite Hlt, Hk, Hrid. simpl. unfold bind at 1. unfold deref at 1.
  rewrite Hr. by destruct (evict_test _ _ _).
Qed.

Lemma make_room_loop_spec n maxq : forall rest fuel pre s cur,
  wf s -> _cache_stack s = pre ++ rest -> (length rest < fuel)%nat ->
  total_size s = Some cur ->
  exists s' scanned rest' cur',
    make_room_loop rt fuel n maxq cur (length pre) s = (s', Ok tt) /\
    rest = scanned ++ rest' /\
    _cache_stack s' =
      pre ++ List.filter (fun k => negb (evictable rt s k)) scanned ++ rest' /\
    _cached_models s' `sublist_of` _cached_models s /\
    heap s' = heap s /\ vram s' = vram s /\ to_log s' = to_log s /\
    model_infos s' = model_infos s /\
    wf s' /\
    total_size s' = Some cur' /\
    (Qgtb (inject_Z (cur' + n)) maxq = false \/ rest' = []).
Proof.
  induction rest as [|k rest IH]; intros fuel pre s cur Hwf Hst Hfuel Hcur;
    (destruct fuel as [|fuel]; [simpl in Hfuel; lia|]).
  - exists s, [], [], cur. rewrite app_nil_r in Hst. simpl. rewrite app_nil_r.
    split_and!; try done; [|by right].
    apply make_room_loop_stop. right. by rewrite Hst.
  - destruct (Qgtb (inject_Z (cur + n)) maxq) eqn:Hq.
    2:{ exists s, [], (k :: rest), cur. simpl.
        split_and!; try done; [|by left].
        apply make_room_loop_stop. by left. }
    assert (Hpos : _cache_stack s !! length pre = Some k).
    { rewrite Hst. by apply list_lookup_middle. }
    assert (Hk : k ∈ dict_keys (_cached_models s)).
    { apply Hwf. rewrite Hst. apply elem_of_app. right. by left. }
    destruct (dict_get_is_Some _ _ Hk) as [rid Hrid].
    destruct (wf_values_valid _ Hwf rid) as [r Hr]; [by eapply dict_get_value|].
    assert (Hev : evictable rt s k = evict_test k r (getrefcount rt k)).
    { unfold evictable. by rewrite Hrid, Hr. }
    pose proof (make_room_loop_step fuel n maxq cur _ s k rid r Hq Hpos Hrid Hr)
      as Hstep.
    simpl in Hfuel.
    destruct (evict_test k r (getrefcount rt k)) eqn:Htest.
    + set (s1 := evict_state (length pre) k s) in *.
      assert (Hst1 : _cache_stack s1 = pre ++ rest).
      { subst s1. simpl. rewrite Hst. apply list_del_at_middle. }
      assert (Hd1 : _cached_models s1 = dict_del (_cached_models s) k) by done.
      assert (Hh1 : heap s1 = heap s) by done.
      assert (Hwf1 : wf s1) by (by eapply wf_evict).
      assert (Hcur1 : total_size s1 = Some (cur - size r)).
      { unfold total_size. rewrite Hd1, Hh1. by eapply sum_sizes_del. }
      destruct (IH fuel pre s1 (cur - size r) Hwf1 Hst1 ltac:(lia) Hcur1)
        as (s' & scanned & rest' & cur' & Hrun & Hrest & Hst' & Hsub & Hh'
            & Hv' & Hl' & Hm' & Hwf' & Hcur' & Hend).
      exists s', (k :: scanned), rest', cur'.
      split; [by rewrite Hstep|]. simpl. rewrite Hev. simpl.
      assert (Hnd : NoDup (pre ++ k :: rest)) by (rewrite <- Hst; apply Hwf).
      apply NoDup_app in Hnd as (_ & _ & Hnd). apply NoDup_cons in Hnd as [Hk' _].
      split_and!; try done; try congruence.
      * rewrite Hst'. do 2 f_equal. apply filter_ext_in. intros x Hx.
        f_equal. eapply evictable_del; [done..|]. intros ->. apply Hk'.
        rewrite Hrest. apply elem_of_app. left. by apply list_elem_of_In.
      * etrans; [exact Hsub|]. rewrite Hd1. apply dict_del_sublist.
    + destruct (IH fuel (pre ++ [k]) s cur Hwf ltac:(by rewrite <- app_assoc)
                  ltac:(lia) Hcur)
        as (s' & scanned & rest' & cur' & Hrun & Hrest & Hst' & Hsub & Hh'
            & Hv' & Hl' & Hm' & Hwf' & Hcur' & Hend).
      exists s', (k :: scanned), rest', cur'.
      rewrite length_app in Hrun. simpl in Hrun.
      split; [by rewrite Hstep|]. simpl. rewrite Hev. simpl.
      split_and!; try done; try congruence.
      rewrite Hst'. by rewrite <- app_assoc.
Qed.
End MakeRoom.

Lemma dict_elem_of_get {V} (d : dict V) k v :
  NoDup (dict_keys d) -> (k, v) ∈ d -> dict_get d k = Some v.
Proof.
  unfold dict_keys. induction d as [|[k0 v0] d IH]; simpl.
  - by intros _ ?%elem_of_nil.
  - rewrite NoDup_cons, elem_of_cons. intros [Hk0 Hnd] [[= -> ->]|Hin].
    + by rewrite String.eqb_refl.
    + destruct (String.eqb_spec k0 k) as [->|Hne]; [|by apply IH].
      exfalso. apply Hk0. apply list_elem_of_fmap. by exists (k, v).
Qed.

Lemma Qgtb_false a b : Qgtb a b = false -> (a <= b)%Q.
Proof.
  unfold Qgtb. intros H. apply negb_false_iff in H. by apply Qle_bool_iff.
Qed.

Section MakeRoomSpec.

Variable cfg : Config.
Variable rt : Runtime.

Lemma make_cache_room_spec n s :
  wf s ->
  exists s' scanned rest' cur',
    _make_cache_room cfg rt n s = (s', Ok tt) /\
    _cache_stack s = scanned ++ rest' /\
    _cache_stack s' =
      List.filter (fun k => negb (evictable rt s k)) scanned ++ rest' /\
    _cached_models s' `sublist_of` _cached_models s /\
    heap s' = heap s /\ vram s' = vram s /\ to_log s' = to_log s /\
    model_infos s' = model_infos s /\
    wf s' /\
    total_size s' = Some cur' /\
    (Qgtb (inject_Z (cur' + n)) (max_cache_size cfg * inject_Z GIG) = false
     \/ rest' = []).
Proof.
  intros Hwf. destruct (wf_total_size s Hwf) as [cur Hcur].
  unfold _make_cache_room, _cache_size. unfold bind at 1.
  unfold total_size in Hcur. rewrite Hcur. unfold bind at 1. unfold get at 1.
  destruct (make_room_loop_spec rt n (max_cache_size cfg * inject_Z GIG)
              (_cache_stack s) (S (length (_cache_stack s))) [] s cur
              Hwf eq_refl ltac:(lia) Hcur)
    as (s' & scanned & rest' & cur' & Hrun & H).
  exists s', scanned, rest', cur'. split; [exact Hrun|exact H].
Qed.

(** C4: from a state that satisfies the invariant, [_make_cache_room]
    returns, and afterwards either the cached total plus the bytes needed
    fits the maximum size, or every entry still cached was examined by the
    scan and failed the eviction test; it never raises when the budget cannot
    be met. *)
Theorem make_cache_room_target_or_exhausted (n : Z) (s : State) :
  wf s ->
  exists s' total,
    _make_cache_room cfg rt n s = (s', Ok tt) /\
    total_size s' = Some total /\
    ((inject_Z (total + n) <= max_cache_size cfg * inject_Z GIG)%Q \/
     (forall k rid, dict_get (_cached_models s') k = Some rid ->
        exists r, dict_get (_cached_models s) k = Some rid /\
                  heap s !! rid = Some r /\
                  evict_test k r (getrefcount rt k) = false)).
Proof.
  intros Hwf.
  destruct (make_cache_room_spec n s Hwf)
    as (s' & scanned & rest' & cur' & Hrun & Hst & Hst' & Hsub & Hh & _ & _ & _
        & Hwf' & Hcur' & Hend).
  exists s', cur'. split; [done|]. split; [done|].
  destruct Hend as [Hq| ->]; [left; by apply Qgtb_false|right].
  intros k rid Hget. rewrite app_nil_r in Hst'.
  assert (Hget0 : dict_get (_cached_models s) k = Some rid).
  { apply dict_elem_of_get; [apply Hwf|].
    eapply elem_of_sublist; [|exact Hsub]. by apply dict_get_elem_of. }
  destruct (wf_values_valid _ Hwf rid) as [r Hr]; [by eapply dict_get_value|].
  exists r. split; [done|]. split; [done|].
  assert (Hin : k ∈ _cache_stack s').
  { apply Hwf'. by eapply dict_get_key. }
  rewrite Hst' in Hin. apply list_elem_of_In, filter_In in Hin as [_ Hne].
  unfold evictable in Hne. rewrite Hget0, Hr in Hne.
  by apply negb_true_iff in Hne.
Qed.

End MakeRoomSpec.


(** ** [get_model] *)

Lemma bind_inv {A B} (m : M A) (k : A -> M B) s s' res :
  bind m k s = (s', res) ->
  (exists s1 a, m s = (s1, Ok a) /\ k a s1 = (s', res)) \/
  (exists e, m s = (s', Raise e) /\ res = Raise e).
Proof.
  unfold bind. destruct (m s) as [s1 [a|e]]; [left; eauto|].
  intros [= <- <-]. right. eauto.
Qed.

Lemma same_registry_refl s : same_registry s s.
Proof. by repeat split. Qed.

Lemma same_registry_trans s1 s2 s3 :
  same_registry s1 s2 -> same_registry s2 s3 -> same_registry s1 s3.
Proof.
  intros (?&?&?&?&?) (?&?&?&?&?). repeat split; congruence.
Qed.

Lemma same_registry_wf s s' : same_registry s s' -> wf s -> wf s'.
Proof.
  intros (?&?&Hh&_). apply wf_same_containers; [done..|]. by rewrite Hh.
Qed.

Lemma same_registry_total s s' :
  same_registry s s' -> total_size s' = total_size s.
Proof. intros (_&Hd&Hh&_). unfold total_size. by rewrite Hd, Hh. Qed.

Lemma update_stats_spec f s :
  update_stats f s = (set_stats s (f <$> stats s), Ok tt).
Proof. done. Qed.

Lemma get_model_info_inv path cls s :
  exists s1 info,
    _get_model_info path cls s = (s1, Ok info) /\ same_registry s s1 /\
    info = default cls (dict_get (model_infos s) (get_key path None)).
Proof.
  unfold _get_model_info. munfold.
  destruct (dict_get (model_infos s) path) as [info|]; simpl;
    eexists _, _; (split; [reflexivity|]); by repeat split.
Qed.

Section GetModel.

Variable cfg : Config.
Variable rt : Runtime.

Lemma record_stats_inv k sz s :
  (forall rid, rid ∈ dict_values (_cached_models s) -> is_Some (heap s !! rid)) ->
  exists s', record_stats cfg k sz s = (s', Ok tt) /\ same_registry s s'.
Proof.
  intros Hval. unfold record_stats, _cache_size. munfold.
  destruct (stats s) as [st|] eqn:Hst.
  - destruct (sum_sizes_is_Some _ _ Hval) as [z Hz].
    rewrite Hz. eexists. split; [reflexivity|]. by repeat split.
  - eexists. split; [reflexivity|]. by repeat split.
Qed.

(** The two steps on the LRU stack at the end of [get_model]. *)
Lemma touch_hit s s' k :
  wf s -> k ∈ dict_keys (_cached_models s) ->
  _cache_stack s' = default (_cache_stack s) (list_remove k (_cache_stack s)) ++ [k] ->
  _cached_models s' = _cached_models s ->
  heap s' = heap s ->
  wf s'.
Proof.
  intros Hwf Hk Hst Hd Hh.
  destruct (list_remove k (_cache_stack s)) as [l|] eqn:Hrm.
  2:{ apply list_remove_None in Hrm. exfalso. apply Hrm. by apply Hwf. }
  destruct (list_remove_Some _ _ _ Hrm (wf_stack_nodup _ Hwf)) as [Hnd Hin].
  simpl in Hst. destruct Hwf as [H1 H2 H3 H4 H5].
  split; rewrite ?Hst, ?Hd, ?Hh; try done.
  - apply NoDup_app. split; [done|]. split; [|apply NoDup_singleton].
    intros x Hx ->%list_elem_of_singleton. by apply Hin in Hx as [_ ?].
  - intros x. rewrite <- H3, elem_of_app, Hin, list_elem_of_singleton. split.
    + intros [[? _]| ->]; [done|]. by apply H3.
    + intros Hx. destruct (String.string_dec x k); [by right|by left].
Qed.

Lemma touch_miss s s' k r :
  wf s -> dict_get (_cached_models s) k = None ->
  _cache_stack s' = default (_cache_stack s) (list_remove k (_cache_stack s)) ++ [k] ->
  _cached_models s' = dict_set (_cached_models s) k (length (heap s)) ->
  heap s' = heap s ++ [r] ->
  wf s'.
Proof.
  intros Hwf Hk Hst Hd Hh.
  rewrite (dict_set_fresh _ _ _ Hk) in Hd.
  apply dict_get_None in Hk.
  assert (Hrm : list_remove k (_cache_stack s) = None).
  { apply list_remove_None. intros Hin. apply Hk. by apply Hwf. }
  rewrite Hrm in Hst. simpl in Hst. destruct Hwf as [H1 H2 H3 H4 H5].
  assert (Hfresh : length (heap s) ∉ dict_values (_cached_models s)).
  { intros Hin. apply H5 in Hin. apply lookup_lt_is_Some in Hin. lia. }
  split; rewrite ?Hst, ?Hd, ?Hh; unfold dict_keys, dict_values in *;
    rewrite ?fmap_app; simpl.
  - apply NoDup_app. split; [done|]. split; [|apply NoDup_singleton].
    intros x Hx ->%list_elem_of_singleton. apply Hk. by apply H3.
  - apply NoDup_app. split; [done|]. split; [|apply NoDup_singleton].
    by intros x Hx ->%list_elem_of_singleton.
  - intros x. rewrite !elem_of_app, H3. done.
  - apply NoDup_app. split; [done|]. split; [|apply NoDup_singleton].
    by intros x Hx ->%list_elem_of_singleton.
  - intros rid [Hin| ->%list_elem_of_singleton]%elem_of_app.
    + apply lookup_lt_is_Some. rewrite length_app. simpl.
      apply H5, lookup_lt_is_Some in Hin. lia.
    + apply lookup_lt_is_Some. rewrite length_app. simpl. lia.
Qed.

Lemma get_model_spec path cls sub gpu s s' res :
  wf s -> get_model cfg rt path cls sub gpu s = (s', res) ->
  wf s' /\
  forall L, res = Ok L ->
    key L = get_key path sub /\
    last (_cache_stack s') = Some (get_key path sub) /\
    dict_get (_cached_models s') (get_key path sub) = Some (cache_entry L).
Proof.
  intros Hwf H. unfold get_model in H.
  destruct (path_exists rt path); simpl in H;
    [|injection H as <- <-; split; [done|by intros L [=]]].
  destruct (get_model_info_inv path cls s) as (s1 & info & Hinfo & Hreg1 & _).
  apply bind_inv in H as [(s1' & info' & Hinfo' & H)|(e & Hinfo' & _)];
    [|congruence].
  rewrite Hinfo in Hinfo'. injection Hinfo' as <- <-.
  pose proof (same_registry_wf _ _ Hreg1 Hwf) as Hwf1.
  apply bind_inv in H as [(s1' & s1'' & [= <- <-] & H)|(e & [=] & _)].
  set (k := get_key path sub) in *.
  apply bind_inv in H as [(s3 & rid & Hrid & H)|(e & Hrid & ->)].
  - assert (Hs3 :
      (forall rid', rid' ∈ dict_values (_cached_models s3) ->
                    is_Some (heap s3 !! rid')) /\
      dict_get (_cached_models s3) k = Some rid /\
      (forall s4, _cache_stack s4 =
                    default (_cache_stack s3) (list_remove k (_cache_stack s3)) ++ [k] ->
                  _cached_models s4 = _cached_models s3 ->
                  heap s4 = heap s3 -> wf s4)).
    { destruct (dict_get (_cached_models s1) k) as [rid0|] eqn:Hk.
      - munfold. injection Hrid as <- <-. simpl.
        split; [apply Hwf1|]. split; [done|]. intros s4 Hst Hd Hh.
        eapply (touch_hit s1 s4 k); [done| |done..]. by eapply dict_get_key.
      - apply bind_inv in Hrid as [(s2 & [] & Hst & Hrid)|(e & [=] & _)].
        rewrite update_stats_spec in Hst. injection Hst as <-.
        set (s2 := set_stats s1 _) in *.
        assert (Hwf2 : wf s2) by (eapply same_registry_wf; [|exact Hwf1]; by repeat split).
        destruct (make_cache_room_spec cfg rt (info_get_size info sub) s2 Hwf2)
          as (sm & scanned & rest' & cur' & Hrun & _ & _ & Hsub & Hh & _ & _ & _
              & Hwfm & _).
        apply bind_inv in Hrid as [(sm' & [] & Hrun' & Hrid)|(e & Hrun' & _)];
          [|congruence].
        rewrite Hrun in Hrun'. injection Hrun' as <-.
        destruct (info_get_model info sub) as [m|]; [|done].
        munfold. injection Hrid as <- <-. simpl.
        assert (Hkm : dict_get (_cached_models sm) k = None).
        { apply dict_get_None. intros Hin. apply dict_get_None in Hk. apply Hk.
          eapply elem_of_sublist; [exact Hin|]. by apply fmap_sublist. }
        split; [|split].
        + rewrite (dict_set_fresh _ _ _ Hkm). unfold dict_values.
          rewrite fmap_app. simpl.
          intros rid' [Hin| ->%list_elem_of_singleton]%elem_of_app;
            apply lookup_lt_is_Some; rewrite length_app; simpl; [|lia].
          apply (wf_values_valid _ Hwfm), lookup_lt_is_Some in Hin. lia.
        + rewrite (dict_set_fresh _ _ _ Hkm). clear -Hkm.
          induction (_cached_models sm) as [|[k0 v0] d IH]; simpl in *.
          * by rewrite String.eqb_refl.
          * destruct (String.eqb k0 k); [done|by apply IH].
        + intros s4 Hst Hd Hh4.
          by eapply (touch_miss sm s4 k (new_CacheRecord m (info_get_size info sub))). }
    destruct Hs3 as (Hval & Hk3 & Hwf4).
    destruct (record_stats_inv k (info_get_size info sub) s3 Hval)
      as (s4 & Hrec & Hreg4).
    apply bind_inv in H as [(s4' & [] & Hrec' & H)|(e & Hrec' & _)]; [|congruence].
    rewrite Hrec in Hrec'. injection Hrec' as <-.
    destruct Hreg4 as (Hst4 & Hd4 & Hh4 & _).
    destruct (Hval rid) as [r Hr]; [by eapply dict_get_value|].
    unfold ModelLocker_init in H. munfold. rewrite Hh4, Hr in H. simpl in H.
    rewrite Hd4, Hk3 in H.
    injection H as <- <-. simpl. split.
    + apply Hwf4; simpl; by rewrite ?Hst4, ?Hd4, ?Hh4.
    + intros L [= <-]. simpl. rewrite Hd4, Hst4. split; [done|]. split; [|done].
      apply last_snoc.
  - split; [|by intros L [=]].
    destruct (dict_get (_cached_models s1) k) as [rid0|] eqn:Hk.
    + munfold. done.
    + apply bind_inv in Hrid as [(s2 & [] & Hst & Hrid)|(e' & [=] & _)].
      rewrite update_stats_spec in Hst. injection Hst as <-.
      set (s2 := set_stats s1 _) in *.
      assert (Hwf2 : wf s2) by (eapply same_registry_wf; [|exact Hwf1]; by repeat split).
      destruct (make_cache_room_spec cfg rt (info_get_size info sub) s2 Hwf2)
        as (sm & scanned & rest' & cur' & Hrun & _ & _ & Hsub & Hh & _ & _ & _
            & Hwfm & _).
      apply bind_inv in Hrid as [(sm' & [] & Hrun' & Hrid)|(e' & Hrun' & _)];
        [|congruence].
      rewrite Hrun in Hrun'. injection Hrun' as <-.
      destruct (info_get_model info sub) as [m|]; munfold; congruence.
Qed.

End GetModel.


Lemma filter_sublist {A} (f : A -> bool) (l : list A) :
  List.filter f l `sublist_of` l.
Proof.
  induction l as [|x l IH]; simpl; [done|].
  destruct (f x); [by apply sublist_skip|by apply sublist_cons].
Qed.

Lemma ex_one_wf d n : wf (ex_one d n).
Proof.
  split; simpl.
  - apply NoDup_singleton.
  - apply NoDup_singleton.
  - done.
  - apply NoDup_singleton.
  - intros rid ->%list_elem_of_singleton. by eexists.
Qed.

Section LoadFailure.

Variable cfg : Config.
Variable rt : Runtime.

(** C8 (as amended): when the provider's load raises during a miss of
    [get_model], the error reaches the caller and the state is the one left
    by the steps that precede the load (the descriptor kept in [model_infos],
    the miss counted, the evictions of [_make_cache_room]): the requested key
    is neither in the dictionary nor in the LRU stack, no record has been
    created, and both containers hold a part of what they held. *)
Theorem load_failure_leaves_no_handle (model_path : string)
    (model_class : ModelBase) (submodel : option string) (gpu_load_ : bool)
    (s : State) :
  wf s ->
  path_exists rt model_path = true ->
  dict_get (_cached_models s) (get_key model_path submodel) = None ->
  info_get_model
    (default model_class (dict_get (model_infos s) (get_key model_path None)))
    submodel = None ->
  exists s',
    get_model cfg rt model_path model_class submodel gpu_load_ s
      = (s', Raise LoadError) /\
    before_load cfg rt model_path model_class submodel s = (s', Ok tt) /\
    (get_key model_path submodel ∉ dict_keys (_cached_models s')) /\
    (get_key model_path submodel ∉ _cache_stack s') /\
    heap s' = heap s /\
    _cached_models s' `sublist_of` _cached_models s /\
    _cache_stack s' `sublist_of` _cache_stack s /\
    wf s'.
Proof.
  intros Hwf Hex Hmiss Hload.
  destruct (get_model_info_inv model_path model_class s)
    as (s1 & info & Hinfo & Hreg1 & Hdef).
  rewrite <- Hdef in Hload.
  pose proof (same_registry_wf _ _ Hreg1 Hwf) as Hwf1.
  set (s2 := set_stats s1 (incr_misses <$> stats s1)).
  assert (Hwf2 : wf s2) by (eapply same_registry_wf; [|exact Hwf1]; by repeat split).
  destruct (make_cache_room_spec cfg rt (info_get_size info submodel) s2 Hwf2)
    as (sm & scanned & rest' & cur' & Hrun & Hst & Hst' & Hsub & Hh & _ & _ & _
        & Hwfm & _).
  destruct Hreg1 as (Hst1 & Hd1 & Hh1 & _).
  assert (Hkey : get_key model_path submodel ∉ dict_keys (_cached_models sm)).
  { intros Hin. apply dict_get_None in Hmiss. apply Hmiss. rewrite <- Hd1.
    eapply elem_of_sublist; [exact Hin|]. by apply fmap_sublist. }
  exists sm. split_and!; try done.
  - unfold get_model. rewrite Hex. simpl. unfold bind at 1. rewrite Hinfo.
    unfold bind at 1. unfold get at 1. rewrite Hd1, Hmiss.
    unfold bind at 1. unfold bind at 1. unfold bind at 1.
    rewrite update_stats_spec. fold s2. rewrite Hrun. by rewrite Hload.
  - unfold before_load. unfold bind at 1. rewrite Hinfo.
    unfold bind. rewrite update_stats_spec. fold s2. by rewrite Hrun.
  - intros Hin. apply Hkey. by apply Hwfm.
  - by rewrite Hh.
  - by rewrite <- Hd1.
  - rewrite Hst', <- Hst1. simpl in Hst. rewrite Hst.
    apply sublist_app; [apply filter_sublist|done].
Qed.

End LoadFailure.

Lemma load_failure_leaves_no_handle_witness :
  exists s',
    get_model ex_cfg ex_rt "sdxl" ex_provider_failing None true
      (ex_one "cpu" 0) = (s', Raise LoadError) /\
    ("sdxl" ∉ dict_keys (_cached_models s')) /\
    ("sdxl" ∉ _cache_stack s').
Proof.
  destruct (load_failure_leaves_no_handle ex_cfg ex_rt "sdxl"
              ex_provider_failing None true (ex_one "cpu" 0)
              (ex_one_wf "cpu" 0) eq_refl eq_refl eq_refl)
    as (s' & Hrun & _ & Hd & Hst & _).
  exists s'. by split_and!.
Defined.

(** C8, the counterexample: the cache holds [sd15], unlocked; a request for
    [sdxl] misses, [_make_cache_room] evicts [sd15], then the load raises.
    The state the caller is left with is not the one it started from. *)
Lemma load_failure_changes_state :
  exists s',
    get_model ex_cfg ex_rt "sdxl" ex_provider_failing None true
      (ex_one "cpu" 0) = (s', Raise LoadError) /\
    dict_get (_cached_models (ex_one "cpu" 0)) "sd15" = Some 0%nat /\
    dict_get (_cached_models s') "sd15" = None /\
    s' <> ex_one "cpu" 0.
Proof.
  eexists. split; [vm_compute; reflexivity|]. split; [done|]. split; [done|].
  intros Heq. apply (f_equal _cached_models) in Heq. discriminate Heq.
Qed.


(** ** [_offload_unlocked_models] *)

Section Sorting.

Context {A : Type} (key : A -> Z).

Lemma insert_by_perm x l : insert_by key x l ≡ₚ x :: l.
Proof.
  induction l as [|y l IH]; simpl; [done|].
  destruct (key x <=? key y); [done|]. rewrite IH. apply Permutation_swap.
Qed.

Lemma sorted_by_perm l : sorted_by key l ≡ₚ l.
Proof.
  induction l as [|x l IH]; simpl; [done|].
  unfold sorted_by in *. simpl. by rewrite insert_by_perm, IH.
Qed.

Lemma insert_by_sorted x l :
  StronglySorted (fun a b => key a <= key b) l ->
  StronglySorted (fun a b => key a <= key b) (insert_by key x l).
Proof.
  induction 1 as [|y l Hs IH Hall]; simpl.
  - by repeat constructor.
  - destruct (Z.leb_spec (key x) (key y)).
    + constructor; [by constructor|]. constructor; [done|].
      eapply Forall_impl; [exact Hall|]. simpl. intros. lia.
    + constructor; [done|]. rewrite insert_by_perm. constructor; [lia|done].
Qed.

Lemma sorted_by_sorted l :
  StronglySorted (fun a b => key a <= key b) (sorted_by key l).
Proof.
  induction l as [|x l IH]; [constructor|].
  unfold sorted_by in *. simpl. by apply insert_by_sorted.
Qed.

End Sorting.

Lemma StronglySorted_sublist {A} (R : relation A) (l1 l2 : list A) :
  l1 `sublist_of` l2 -> StronglySorted R l2 -> StronglySorted R l1.
Proof.
  induction 1 as [|x l1 l2 Hsub IH|x l1 l2 Hsub IH]; intros Hs.
  - constructor.
  - apply StronglySorted_inv in Hs as [Hs Hall]. constructor; [by apply IH|].
    apply Forall_forall. intros y Hy. rewrite Forall_forall in Hall.
    apply Hall. by eapply elem_of_sublist.
  - apply StronglySorted_inv in Hs as [Hs _]. by apply IH.
Qed.

Section Offload.

Variable cfg : Config.
Variable rt : Runtime.

(** The record left by a transfer that returns. *)
Lemma loaded_after_to r o target :
  loaded target
    (set_model r (Some (mkModelObj (has_to o) ((fun _ => target) <$> device o))))
  = false.
Proof.
  unfold loaded. simpl. destruct (device o); simpl; [|done].
  by rewrite String.eqb_refl.
Qed.

Lemma model_to_inv rid target s s' res :
  model_to rt rid target s = (s', res) ->
  _cached_models s' = _cached_models s /\ _cache_stack s' = _cache_stack s /\
  length (heap s') = length (heap s) /\
  (forall rid', rid' <> rid -> heap s' !! rid' = heap s !! rid') /\
  ((to_log s' = to_log s /\ heap s' = heap s /\ vram s' = vram s
    /\ exists e, res = Raise e) \/
   (to_log s' = to_log s ++ [mkToCall rid target (vram s)] /\
    ((res = Ok tt /\
      exists r o, heap s !! rid = Some r /\ model r = Some o /\
        heap s' !! rid =
          Some (set_model r
                  (Some (mkModelObj (has_to o) ((fun _ => target) <$> device o))))) \/
     (heap s' = heap s /\ res = Raise TransferError)))).
Proof.
  unfold model_to. munfold.
  destruct (heap s !! rid) as [r|] eqn:Hr;
    [|intros [= <- <-]; split_and!; try done; left; eauto].
  destruct (model r) as [o|] eqn:Hm;
    [|intros [= <- <-]; split_and!; try done; left; eauto].
  destruct (has_to o) eqn:Hto;
    [|intros [= <- <-]; split_and!; try done; left; eauto].
  destruct (to_ok _); intros [= <- <-]; simpl.
  - split_and!; try done.
    + apply length_insert.
    + intros rid' Hne. by rewrite list_lookup_insert_ne.
    + right. split; [done|]. left. split; [done|]. exists r, o. rewrite Hto.
      split_and!; try done.
      apply list_lookup_insert_eq. by eapply lookup_lt_Some.
  - split_and!; try done. right. split; [done|]. by right.
Qed.

Lemma offload_call_ok_frame reserved s s1 c :
  heap s1 !! call_rid c = heap s !! call_rid c ->
  offload_call_ok cfg reserved s1 c -> offload_call_ok cfg reserved s c.
Proof. intros Heq (?&?&r&Hr&?). rewrite Heq in Hr. repeat split; eauto. Qed.

Lemma offload_loop_spec reserved : forall items s s' res,
  NoDup items.*2 ->
  offload_loop cfg rt reserved items (vram s) s = (s', res) ->
  exists calls,
    to_log s' = to_log s ++ calls /\
    call_rid <$> calls `sublist_of` items.*2 /\
    Forall (offload_call_ok cfg reserved s) calls /\
    (forall rid, rid ∉ call_rid <$> calls -> heap s' !! rid = heap s !! rid) /\
    length (heap s') = length (heap s) /\
    _cached_models s' = _cached_models s /\
    _cache_stack s' = _cache_stack s /\
    (res = Ok tt ->
     Qle_bool (inject_Z (vram s')) reserved = true \/
     forall rid r, rid ∈ items.*2 -> heap s' !! rid = Some r ->
       negb (locked r) && loaded (storage_device cfg) r = false).
Proof.
  induction items as [|[k rid] items IH]; intros s s' res Hnd;
    cbn [offload_loop].
  - intros [= <- <-]. exists []. rewrite app_nil_r. split_and!; try done.
    intros _. right. by intros rid r ?%elem_of_nil.
  - change (((k, rid) :: items).*2) with (rid :: items.*2) in *.
    apply NoDup_cons in Hnd as [Hrid Hnd].
    destruct (Qle_bool (inject_Z (vram s)) reserved) eqn:Hq.
    { intros [= <- <-]. exists []. rewrite app_nil_r. split_and!; try done.
      - apply sublist_nil_l.
      - intros _. by left. }
    unfold bind at 1. unfold deref at 1.
    destruct (heap s !! rid) as [r|] eqn:Hr.
    2:{ intros [= <- <-]. exists []. rewrite app_nil_r. split_and!; try done.
        apply sublist_nil_l. }
    destruct (negb (locked r) && loaded (storage_device cfg) r) eqn:Hcond.
    + unfold bind at 1.
      destruct (with_VRAMUsage (model_to rt rid (storage_device cfg)) s)
        as [s1 resw] eqn:Hw.
      apply with_VRAMUsage_inv in Hw as [[Hto ->]|(e & Hto & ->)];
        apply model_to_inv in Hto
          as (Hd1 & Hst1 & Hlen1 & Hframe1 & [(Hlog1 & Hh1 & Hv1 & e' & He')|(Hlog1 & Hres1)]);
        try done.
      * (* the transfer returned *)
        destruct Hres1 as [(_ & r0 & o0 & _ & _ & Hr1)|(_ & [=])].
        replace (vram s + (vram s1 - vram s)) with (vram s1) by lia.
        intros Hrest. apply IH in Hrest as
          (calls & Hlog & Hsub & Hall & Hframe & Hlen & Hd & Hst & Hend); [|done].
        exists (mkToCall rid (storage_device cfg) (vram s) :: calls).
        assert (Hnotin : rid ∉ call_rid <$> calls).
        { intros Hin. apply Hrid. by eapply elem_of_sublist. }
        split_and!; try congruence.
        -- rewrite Hlog, Hlog1. by rewrite <- app_assoc.
        -- simpl. by apply sublist_skip.
        -- constructor.
           ++ repeat split; simpl; [done|]. exists r.
              apply andb_true_iff in Hcond as [Hl Hld].
              apply negb_true_iff in Hl. done.
           ++ apply Forall_forall. intros c Hc. rewrite Forall_forall in Hall.
              apply (offload_call_ok_frame reserved s s1); [|by apply Hall].
              apply Hframe1. intros Heq. apply Hrid. rewrite <- Heq.
              eapply elem_of_sublist; [|exact Hsub].
              by apply list_elem_of_fmap_2.
        -- intros rid0 Hnin. simpl in Hnin. apply not_elem_of_cons in Hnin as [Hne Hnin].
           rewrite (Hframe rid0 Hnin). by apply Hframe1.
        -- intros Hok. destruct (Hend Hok) as [Hle|Hall']; [by left|right].
           intros rid0 rr [->|Hin]%elem_of_cons Hr0; [|by eapply Hall'].
           rewrite (Hframe rid Hnotin), Hr1 in Hr0. injection Hr0 as <-.
           rewrite loaded_after_to. apply andb_false_r.
      * (* no transfer was started *)
        intros [= <- <-]. exists []. rewrite app_nil_r.
        split_and!; try done.
        -- apply sublist_nil_l.
        -- intros rid0 _. by rewrite Hh1.
      * (* the transfer raised after it was logged *)
        destruct Hres1 as [([=] & _)|(Hh1 & _)].
        intros [= <- <-].
        exists [mkToCall rid (storage_device cfg) (vram s)].
        split_and!; try done.
        -- simpl. apply sublist_skip, sublist_nil_l.
        -- constructor; [|constructor]. repeat split; simpl; [done|].
           exists r. apply andb_true_iff in Hcond as [Hl Hld].
           apply negb_true_iff in Hl. done.
        -- intros rid0 _. by rewrite Hh1.
    + intros Hrest. apply IH in Hrest as
        (calls & Hlog & Hsub & Hall & Hframe & Hlen & Hd & Hst & Hend); [|done].
      exists calls. split_and!; try done.
      * by apply sublist_cons.
      * intros Hok. destruct (Hend Hok) as [Hle|Hall']; [by left|right].
        intros rid0 r0 [->|Hin]%elem_of_cons Hr0; [|by eapply Hall'].
        rewrite Hframe, Hr in Hr0; [by injection Hr0 as <-|].
        intros Hin. apply Hrid. by eapply elem_of_sublist.
Qed.

Lemma offload_inv n s s' res :
  wf s ->
  _offload_unlocked_models cfg rt n s = (s', res) ->
  offload_loop cfg rt (max_vram_cache_size cfg * inject_Z GIG)
    (sorted_by (size_at (heap s)) (_cached_models s)) (vram s) s = (s', res).
Proof.
  intros Hwf. unfold _offload_unlocked_models. munfold.
  assert (Hall : forallb (fun x : string * nat =>
            bool_decide (is_Some (heap s !! x.2))) (_cached_models s) = true).
  { apply forallb_forall. intros [k rid] Hin. apply bool_decide_eq_true.
    apply (wf_values_valid _ Hwf). apply list_elem_of_fmap.
    exists (k, rid). split; [done|]. by apply list_elem_of_In. }
  by rewrite Hall.
Qed.

Lemma model_to_run rid target s r :
  heap s !! rid = Some r ->
  (hasattr_to (model r) = false /\
   model_to rt rid target s = (s, Raise AttributeError)) \/
  (hasattr_to (model r) = true /\
   exists s',
     model_to rt rid target s
       = (s', if to_ok (to_outcome rt (length (to_log s)))
              then Ok tt else Raise TransferError) /\
     to_log s' = to_log s ++ [mkToCall rid target (vram s)]).
Proof.
  intros Hr. unfold model_to. munfold. rewrite Hr.
  destruct (model r) as [o|]; simpl; [|by left].
  destruct (has_to o); [|by left].
  right. split; [done|].
  destruct (to_ok _); eexists; (split; [reflexivity|done]).
Qed.

Lemma candidate_frame s s1 (x : string * nat) :
  heap s1 !! x.2 = heap s !! x.2 -> candidate cfg s1 x = candidate cfg s x.
Proof. intros H. unfold candidate. by rewrite H. Qed.

Lemma offload_loop_exact reserved : forall items s s' res,
  NoDup items.*2 ->
  (forall x, x ∈ items -> is_Some (heap s !! x.2)) ->
  offload_loop cfg rt reserved items (vram s) s = (s', res) ->
  exists calls scanned rest,
    to_log s' = to_log s ++ calls /\
    items = scanned ++ rest /\
    let moved := List.filter (candidate cfg s) scanned in
    match res with
    | Ok _ =>
        call_rid <$> calls = moved.*2 /\
        (rest = [] \/ Qle_bool (inject_Z (vram s')) reserved = true)
    | Raise e =>
        exists k rid r rest',
          rest = (k, rid) :: rest' /\
          heap s !! rid = Some r /\
          locked r = false /\ loaded (storage_device cfg) r = true /\
          ((e = TransferError /\
            call_rid <$> calls = moved.*2 ++ [rid] /\
            hasattr_to (model r) = true /\
            to_ok (to_outcome rt (length (to_log s) + length moved)) = false) \/
           (e = AttributeError /\
            call_rid <$> calls = moved.*2 /\
            hasattr_to (model r) = false /\
            Qle_bool (inject_Z (vram s')) reserved = false))
    end.
Proof.
  induction items as [|[k rid] items IH]; intros s s' res Hnd Hval;
    cbn [offload_loop].
  - intros [= <- <-]. exists [], [], []. rewrite app_nil_r. simpl.
    split_and!; try done. by left.
  - change (((k, rid) :: items).*2) with (rid :: items.*2) in *.
    apply NoDup_cons in Hnd as [Hrid Hnd].
    destruct (Qle_bool (inject_Z (vram s)) reserved) eqn:Hq.
    { intros [= <- <-]. exists [], [], ((k, rid) :: items). rewrite app_nil_r.
      simpl. split_and!; try done. by right. }
    destruct (Hval (k, rid)) as [r Hr]; [by left|]. simpl in Hr.
    unfold bind at 1. unfold deref at 1. rewrite Hr.
    assert (Hcand : candidate cfg s (k, rid)
                    = negb (locked r) && loaded (storage_device cfg) r).
    { unfold candidate. simpl. by rewrite Hr. }
    assert (Hval' : forall s1, length (heap s1) = length (heap s) ->
              forall x, x ∈ items -> is_Some (heap s1 !! x.2)).
    { intros s1 Hlen x Hx. apply lookup_lt_is_Some. rewrite Hlen.
      apply lookup_lt_is_Some, Hval. by right. }
    destruct (negb (locked r) && loaded (storage_device cfg) r) eqn:Hcond.
    + apply andb_true_iff in Hcond as [Hl Hld]. apply negb_true_iff in Hl.
      unfold bind at 1.
      destruct (model_to_run rid (storage_device cfg) s r Hr)
        as [[Hto Hrun]|(Hto & s1 & Hrun & Hlog1)].
      * (* the model has no [to] *)
        unfold with_VRAMUsage. unfold bind at 1. unfold get at 1.
        unfold bind at 1. rewrite Hrun. intros [= <- <-].
        exists [], [], ((k, rid) :: items). rewrite app_nil_r. simpl.
        split_and!; try done. exists k, rid, r, items.
        split_and!; try done. right. by split_and!.
      * unfold with_VRAMUsage. unfold bind at 1. unfold get at 1.
        unfold bind at 1. rewrite Hrun.
        pose proof Hrun as (Hd1 & Hst1 & Hlen1 & Hframe1 & _)%model_to_inv.
        destruct (to_ok (to_outcome rt (length (to_log s)))) eqn:Hok.
        -- (* the transfer returned *)
           unfold bind at 1. unfold get at 1. unfold ret at 1.
           replace (vram s + (vram s1 - vram s)) with (vram s1) by lia.
           intros Hrest.
           apply IH in Hrest as (calls & scanned & rest & Hlog & Hitems & Hm);
             [|done|by apply Hval'].
           assert (Hfilter : List.filter (candidate cfg s1) scanned
                             = List.filter (candidate cfg s) scanned).
           { apply filter_ext_in. intros x Hx. apply candidate_frame.
             apply Hframe1. intros Heq. apply Hrid. rewrite <- Heq.
             apply list_elem_of_fmap_2. rewrite Hitems. apply elem_of_app. left.
             by apply list_elem_of_In. }
           exists (mkToCall rid (storage_device cfg) (vram s) :: calls),
             ((k, rid) :: scanned), rest.
           split; [by rewrite Hlog, Hlog1, <- app_assoc|].
           split; [by rewrite Hitems|].
           cbn zeta in Hm. rewrite Hfilter in Hm.
           cbn zeta. cbn [List.filter]. rewrite Hcand.
           destruct res as [[]|e].
           ++ destruct Hm as [Hrids Hend]. split; [|done].
              by rewrite !fmap_cons, Hrids.
           ++ destruct Hm as (k' & rid' & r' & rest' & Hrest' & Hr' & Hl' & Hld' & Hcase).
              exists k', rid', r', rest'. split; [done|]. split.
              { rewrite <- Hr'. symmetry. apply Hframe1. intros ->. apply Hrid.
                rewrite Hitems, Hrest'. rewrite fmap_app. apply elem_of_app.
                right. by left. }
              split; [done|]. split; [done|].
              rewrite Hlog1, length_app in Hcase. simpl in Hcase.
              destruct Hcase as [(-> & Hrids & Hto' & Hfail)|(-> & Hrids & Hto' & Hqs)].
              ** left. split_and!; try done.
                 --- by rewrite !fmap_cons, Hrids.
                 --- simpl length. rewrite <- Hfail. do 2 f_equal. lia.
              ** right. split_and!; try done. by rewrite !fmap_cons, Hrids.
        -- (* the transfer raised *)
           intros [= <- <-].
           exists [mkToCall rid (storage_device cfg) (vram s)], [],
             ((k, rid) :: items).
           split; [done|]. split; [done|]. simpl.
           exists k, rid, r, items. split_and!; try done. left.
           split_and!; try done. by rewrite Nat.add_0_r.
    + intros Hrest.
      apply IH in Hrest as (calls & scanned & rest & Hlog & Hitems & Hm);
        [|done|by apply Hval'].
      exists calls, ((k, rid) :: scanned), rest.
      split; [done|]. split; [by rewrite Hitems|].
      cbn zeta in Hm. cbn zeta. cbn [List.filter]. rewrite Hcand. exact Hm.
Qed.

(** C7: from a state that satisfies the invariant,
    [_offload_unlocked_models] moves records to the storage device in the
    order of the dictionary sorted by ascending size; every record it moves
    was unlocked and loaded, and was moved at a moment when the VRAM in use
    exceeded the reserve; a locked record is never moved; and when the pass
    returns, either the VRAM in use is at or below the reserve or no cached
    record is both unlocked and loaded.  The records it moves are exactly the
    unlocked loaded ones of the part of the sorted dictionary it has gone
    through: the whole of it, or the part before the item at which the VRAM
    in use was found at or below the reserve.  The pass does not return only
    when a transfer raises, or when an unlocked loaded model reached while
    the VRAM in use exceeds the reserve has no [to] method. *)
Theorem offload_unlocked_order_and_stop (n : Z) (s s' : State) (res : Res unit) :
  wf s ->
  _offload_unlocked_models cfg rt n s = (s', res) ->
  let reserved := (max_vram_cache_size cfg * inject_Z GIG)%Q in
  exists calls,
    to_log s' = to_log s ++ calls /\
    call_rid <$> calls `sublist_of`
      (sorted_by (size_at (heap s)) (_cached_models s)).*2 /\
    StronglySorted Z.le (record_size (heap s) <$> (call_rid <$> calls)) /\
    Forall (offload_call_ok cfg reserved s) calls /\
    (forall rid r, heap s !! rid = Some r -> locked r = true ->
       (rid ∉ call_rid <$> calls) /\ heap s' !! rid = Some r) /\
    (res = Ok tt ->
     Qle_bool (inject_Z (vram s')) reserved = true \/
     forall rid r, rid ∈ dict_values (_cached_models s') ->
       heap s' !! rid = Some r ->
       locked r = true \/ loaded (storage_device cfg) r = false) /\
    (exists scanned rest,
       sorted_by (size_at (heap s)) (_cached_models s) = scanned ++ rest /\
       let moved := List.filter (candidate cfg s) scanned in
       match res with
       | Ok _ =>
           call_rid <$> calls = moved.*2 /\
           (rest = [] \/ Qle_bool (inject_Z (vram s')) reserved = true)
       | Raise e =>
           exists k rid r rest',
             rest = (k, rid) :: rest' /\
             heap s !! rid = Some r /\
             locked r = false /\ loaded (storage_device cfg) r = true /\
             ((e = TransferError /\
               call_rid <$> calls = moved.*2 ++ [rid] /\
               hasattr_to (model r) = true /\
               to_ok (to_outcome rt (length (to_log s) + length moved)) = false) \/
              (e = AttributeError /\
               call_rid <$> calls = moved.*2 /\
               hasattr_to (model r) = false /\
               Qle_bool (inject_Z (vram s')) reserved = false))
       end) /\
    ((forall i, to_ok (to_outcome rt i) = true) ->
     (forall rid r, rid ∈ dict_values (_cached_models s) ->
        heap s !! rid = Some r ->
        locked r = false -> loaded (storage_device cfg) r = true ->
        hasattr_to (model r) = true) ->
     res = Ok tt).
Proof.
  intros Hwf Hrun reserved. apply offload_inv in Hrun; [|done].
  set (items := sorted_by (size_at (heap s)) (_cached_models s)) in *.
  assert (Hperm : items ≡ₚ _cached_models s) by apply sorted_by_perm.
  assert (Hnd : NoDup items.*2) by (rewrite Hperm; apply Hwf).
  assert (Hval : forall x, x ∈ items -> is_Some (heap s !! x.2)).
  { intros x Hx. apply (wf_values_valid _ Hwf). apply list_elem_of_fmap_2.
    by rewrite <- Hperm. }
  pose proof Hrun as (calls2 & scanned & rest & Hlog2 & Hitems & Hexact)%offload_loop_exact;
    [|done..].
  apply offload_loop_spec in Hrun as
    (calls & Hlog & Hsub & Hall & Hframe & Hlen & Hd & Hst & Hend); [|done].
  assert (calls2 = calls) as ->.
  { rewrite Hlog in Hlog2. by apply app_inv_head in Hlog2. }
  assert (Hlocked : forall rid r, heap s !! rid = Some r -> locked r = true ->
            rid ∉ call_rid <$> calls).
  { intros rid r Hr Hl [c [-> Hc]]%list_elem_of_fmap.
    rewrite Forall_forall in Hall. destruct (Hall c Hc) as (_ & _ & r' & Hr' & Hl' & _).
    congruence. }
  exists calls. split_and!; try done.
  - eapply StronglySorted_sublist; [by apply fmap_sublist|].
    rewrite <- list_fmap_compose.
    apply (StronglySorted_fmap _ (fun a b => size_at (heap s) a <= size_at (heap s) b));
      [done|apply sorted_by_sorted].
  - intros rid r Hr Hl. split; [by eapply Hlocked|].
    rewrite Hframe; [done|by eapply Hlocked].
  - intros Hok. destruct (Hend Hok) as [Hle|Hno]; [by left|right].
    intros rid r Hin Hr. rewrite Hd in Hin.
    assert (Hin' : rid ∈ items.*2) by (by rewrite Hperm).
    specialize (Hno rid r Hin' Hr).
    apply andb_false_iff in Hno as [Hl|Hld]; [left|by right].
    by apply negb_false_iff in Hl.
  - by exists scanned, rest.
  - intros Hoks Htos. destruct res as [[]|e]; [done|]. exfalso.
    cbn zeta in Hexact.
    destruct Hexact as (k & rid & r & rest' & Hrest & Hr & Hl & Hld & Hcase).
    destruct Hcase as [(_ & _ & _ & Hfail)|(_ & _ & Hto & _)].
    + by rewrite Hoks in Hfail.
    + rewrite (Htos rid r) in Hto; try done.
      change (rid ∈ (_cached_models s).*2). rewrite <- Hperm, Hitems, Hrest.
      rewrite fmap_app. apply elem_of_app. right. by left.
Qed.

Lemma offload_wf n s s' res :
  wf s -> _offload_unlocked_models cfg rt n s = (s', res) -> wf s'.
Proof.
  intros Hwf Hrun. apply offload_inv in Hrun; [|done].
  apply offload_loop_spec in Hrun as (calls & _ & _ & _ & _ & Hlen & Hd & Hst & _).
  - by eapply wf_same_containers.
  - rewrite sorted_by_perm. apply Hwf.
Qed.

End Offload.


Lemma ex_two_wf n : wf (ex_two n).
Proof.
  split; simpl.
  - apply NoDup_cons. split; [|apply NoDup_singleton].
    by intros [=]%list_elem_of_singleton.
  - apply NoDup_cons. split; [|apply NoDup_singleton].
    by intros [=]%list_elem_of_singleton.
  - done.
  - apply NoDup_cons. split; [|apply NoDup_singleton].
    by intros [=]%list_elem_of_singleton.
  - intros rid [->| ->%list_elem_of_singleton]%elem_of_cons; by eexists.
Qed.

Section Promote.

Variable cfg : Config.
Variable rt : Runtime.

Lemma offload_locked_untouched n s s' res :
  wf s ->
  _offload_unlocked_models cfg rt n s = (s', res) ->
  exists calls,
    to_log s' = to_log s ++ calls /\
    forall rid r, heap s !! rid = Some r -> locked r = true ->
      (rid ∉ call_rid <$> calls) /\ heap s' !! rid = Some r.
Proof.
  intros Hwf Hrun. apply offload_inv in Hrun; [|done].
  apply offload_loop_spec in Hrun as (calls & Hlog & _ & Hall & Hframe & _).
  2:{ rewrite sorted_by_perm. apply Hwf. }
  exists calls. split; [done|]. intros rid r Hr Hl.
  assert (Hnin : rid ∉ call_rid <$> calls).
  { intros [c [-> Hc]]%list_elem_of_fmap. rewrite Forall_forall in Hall.
    destruct (Hall c Hc) as (_ & _ & r' & Hr' & Hl' & _). congruence. }
  split; [done|]. by rewrite Hframe.
Qed.

Lemma promote_resident L s s' res r o :
  wf s ->
  heap s !! lk_model L = Some r -> locked r = true ->
  model r = Some o -> device o = Some (execution_device cfg) ->
  promote cfg rt L s = (s', res) ->
  exists calls,
    to_log s' = to_log s ++ calls /\
    (lk_model L ∉ call_rid <$> calls) /\
    heap s' !! lk_model L = Some r /\
    (lazy_offloading cfg = false -> s' = s /\ res = Ok tt).
Proof.
  intros Hwf Hr Hl Hm Hd. unfold promote.
  assert (Hrest : forall s1, heap s1 !! lk_model L = Some r ->
    (d <- model_device (lk_model L) ;;
     if negb (d =? execution_device cfg)%string
     then _ <- with_VRAMUsage (model_to rt (lk_model L) (execution_device cfg)) ;;
          ret tt
     else ret tt) s1 = (s1, Ok tt)).
  { intros s1 Hr1. unfold model_device. munfold. rewrite Hr1, Hm, Hd.
    by rewrite String.eqb_refl. }
  destruct (lazy_offloading cfg).
  - intros [(s1 & [] & Hoff & Hk)|(e & Hoff & ->)]%bind_inv;
      destruct (offload_locked_untouched _ _ _ _ Hwf Hoff) as (calls & Hlog & Hun);
      destruct (Hun _ _ Hr Hl) as [Hnin Hr1]; exists calls.
    + rewrite (Hrest s1 Hr1) in Hk. injection Hk as <- <-. by split_and!.
    + by split_and!.
  - unfold bind at 1. unfold ret at 1. rewrite (Hrest s Hr). intros [= <- <-].
    exists []. rewrite app_nil_r. split_and!; try done. apply not_elem_of_nil.
Qed.

Lemma promote_inv L s s' res :
  wf s -> promote cfg rt L s = (s', res) ->
  wf s' /\
  (res = Ok tt ->
   exists r o, heap s' !! lk_model L = Some r /\ model r = Some o /\
               device o = Some (execution_device cfg)).
Proof.
  intros Hwf. unfold promote.
  assert (Hoff : exists s1 res1,
    (if lazy_offloading cfg then _offload_unlocked_models cfg rt (size_needed L)
     else ret tt) s = (s1, res1) /\ wf s1).
  { destruct (lazy_offloading cfg).
    - destruct (_offload_unlocked_models cfg rt (size_needed L) s) as [s1 r1] eqn:Ho.
      exists s1, r1. split; [done|]. by eapply offload_wf.
    - by exists s, (Ok tt). }
  destruct Hoff as (s1 & res1 & Hoff & Hwf1).
  unfold bind at 1. rewrite Hoff.
  destruct res1 as [[]|e]; [|by intros [= <- <-]].
  unfold model_device. unfold bind at 1. unfold bind at 1. unfold deref at 1.
  destruct (heap s1 !! lk_model L) as [r|] eqn:Hr; [|by intros [= <- <-]].
  destruct (model r) as [o|] eqn:Hm; [|by intros [= <- <-]].
  destruct (device o) as [d|] eqn:Hd; [|by intros [= <- <-]].
  unfold ret at 1.
  destruct (String.eqb_spec d (execution_device cfg)) as [->|Hne]; simpl.
  - intros [= <- <-]. split; [done|]. intros _. by exists r, o.
  - intros [(s2 & z & Hw & [= <- <-])|(e & Hw & ->)]%bind_inv.
    + apply with_VRAMUsage_inv in Hw as [[Hto _]|(e & _ & [=])].
      apply model_to_inv in Hto as (Hd2 & Hst2 & Hlen2 & _ & Hcase). split.
      * eapply wf_same_containers; [done..|exact Hwf1].
      * intros _. destruct Hcase as [(_ & _ & _ & e & [=])|(_ & [(_ & r0 & o0 & Hr0 & Hm0 & Hr2)|(_ & [=])])].
        rewrite Hr in Hr0. injection Hr0 as <-. rewrite Hm in Hm0. injection Hm0 as <-.
        eexists _, _. split; [exact Hr2|]. split; [done|]. simpl. by rewrite Hd.
    + apply with_VRAMUsage_inv in Hw as [[_ [=]]|(e' & Hto & _)].
      apply model_to_inv in Hto as (Hd2 & Hst2 & Hlen2 & _). split; [|done].
      eapply wf_same_containers; [done..|exact Hwf1].
Qed.

(** C9 (as amended): for a locked entry of a state that satisfies the
    invariant, [promote] on a model that already reports the execution
    device makes no transfer of that model and leaves its record as it is,
    and with lazy offloading off it changes nothing; so a second [promote]
    right after one that returned moves the model no more.  With lazy
    offloading on, the offload pass still runs first: the transfers it makes
    are of other entries. *)
Theorem promote_resident_idempotent (L : ModelLocker) (s : State)
    (r : _CacheRecord) :
  wf s ->
  heap s !! lk_model L = Some r ->
  locked r = true ->
  (forall o s' res,
     model r = Some o -> device o = Some (execution_device cfg) ->
     promote cfg rt L s = (s', res) ->
     exists calls,
       to_log s' = to_log s ++ calls /\
       (lk_model L ∉ call_rid <$> calls) /\
       heap s' !! lk_model L = Some r /\
       (lazy_offloading cfg = false -> s' = s /\ res = Ok tt)) /\
  (forall s1 s2 res2,
     promote cfg rt L s = (s1, Ok tt) ->
     promote cfg rt L s1 = (s2, res2) ->
     exists calls,
       to_log s2 = to_log s1 ++ calls /\
       (lk_model L ∉ call_rid <$> calls) /\
       heap s2 !! lk_model L = heap s1 !! lk_model L /\
       (lazy_offloading cfg = false -> s2 = s1 /\ res2 = Ok tt)).
Proof.
  intros Hwf Hr Hl. split.
  - intros o s' res Hm Hd Hrun. by eapply promote_resident.
  - intros s1 s2 res2 Hrun1 Hrun2.
    destruct (promote_inv _ _ _ _ Hwf Hrun1) as [Hwf1 Hres].
    destruct (Hres eq_refl) as (r1 & o1 & Hr1 & Hm1 & Hd1).
    assert (Hl1 : locked r1 = true).
    { pose proof (promote_same_locks _ _ _ _ _ _ Hrun1 (lk_model L)) as Hsl.
      unfold locks_at in Hsl. rewrite Hr, Hr1 in Hsl. simpl in Hsl.
      unfold locked in *. congruence. }
    destruct (promote_resident L s1 s2 res2 r1 o1 Hwf1 Hr1 Hl1 Hm1 Hd1 Hrun2)
      as (calls & Hlog & Hnin & Hr2 & Hlazy).
    exists calls. split_and!; try done. by rewrite Hr2, Hr1.
Qed.

End Promote.

Lemma promote_resident_idempotent_witness :
  (exists calls,
     to_log (promote ex_cfg ex_rt_free ex_locker_unet (ex_two 1)).1
       = to_log (ex_two 1) ++ calls /\
     (0%nat ∉ call_rid <$> calls) /\
     heap (promote ex_cfg ex_rt_free ex_locker_unet (ex_two 1)).1 !! 0%nat
       = Some (mk_CacheRecord (4 * GIG) (Some (ex_torch "cuda")) 1)).
Proof.
  destruct (promote_resident_idempotent ex_cfg ex_rt_free ex_locker_unet
              (ex_two 1) (mk_CacheRecord (4 * GIG) (Some (ex_torch "cuda")) 1)
              (ex_two_wf 1) eq_refl eq_refl) as [H1 _].
  destruct (H1 (ex_torch "cuda") _ _ eq_refl eq_refl
              (surjective_pairing _)) as (calls & Hlog & Hnin & Hr & _).
  exists calls. by split_and!.
Defined.

(** C9, the counterexample: [unet] is locked and on the execution device,
    [vae] is unlocked and on it too, and the VRAM in use exceeds the reserve.
    With lazy offloading on, [promote] on [unet] makes a transfer: it moves
    [vae] to the storage device. *)
Lemma promote_resident_makes_a_transfer :
  let s' := (promote ex_cfg ex_rt_free ex_locker_unet (ex_two 1)).1 in
  (model <$> heap (ex_two 1) !! 0%nat) = Some (Some (ex_torch "cuda")) /\
  execution_device ex_cfg = "cuda" /\
  to_log (ex_two 1) = [] /\
  to_log s' = [mkToCall 1 "cpu" (5 * GIG)] /\
  (model <$> heap (ex_two 1) !! 1%nat) = Some (Some (ex_torch "cuda")) /\
  (model <$> heap s' !! 1%nat) = Some (Some (ex_torch "cpu")).
Proof. vm_compute. by split_and!. Qed.


(** ** The invariant is kept by every operation *)

Lemma lock_wf rid s s' res : lock rid s = (s', res) -> wf s -> wf s'.
Proof.
  destruct (heap s !! rid) as [r|] eqn:Hr.
  - rewrite (lock_spec _ _ _ Hr). intros [= <- _].
    apply wf_same_containers; try done. simpl. apply length_insert.
  - unfold lock. munfold. rewrite Hr. by intros [= <- _].
Qed.

Lemma unlock_wf rid s s' res : unlock rid s = (s', res) -> wf s -> wf s'.
Proof.
  destruct (heap s !! rid) as [r|] eqn:Hr.
  - rewrite (unlock_spec _ _ _ Hr). intros [= <- _].
    apply wf_same_containers; try done. simpl. apply length_insert.
  - unfold unlock. munfold. rewrite Hr. by intros [= <- _].
Qed.

Lemma dict_del_absent {V} (d : dict V) k :
  dict_get d k = None -> dict_del d k = d.
Proof.
  induction d as [|[k0 v0] d IH]; simpl; [done|].
  destruct (String.eqb k0 k); [done|]. intros H. by rewrite IH.
Qed.

Lemma uncache_model_wf k s s' res :
  uncache_model k s = (s', res) -> wf s -> wf s'.
Proof.
  unfold uncache_model. munfold. intros [= <- _] Hwf.
  destruct (list_remove k (_cache_stack s)) as [l|] eqn:Hrm; simpl.
  - destruct (list_remove_Some _ _ _ Hrm (wf_stack_nodup _ Hwf)) as [Hnd Hin].
    pose proof (dict_del_sublist (_cached_models s) k) as Hsub.
    destruct Hwf as [H1 H2 H3 H4 H5]. split; simpl; try done.
    + eapply sublist_NoDup; [exact H2|]. by apply fmap_sublist.
    + intros x. rewrite Hin, dict_keys_del by done. by rewrite H3.
    + eapply sublist_NoDup; [exact H4|]. by apply fmap_sublist.
    + intros rid Hr. apply H5. eapply elem_of_sublist; [exact Hr|].
      by apply fmap_sublist.
  - apply list_remove_None in Hrm.
    assert (Hk : dict_get (_cached_models s) k = None).
    { apply dict_get_None. intros Hin. apply Hrm. by apply Hwf. }
    rewrite (dict_del_absent _ _ Hk). by destruct Hwf.
Qed.

Section Invariant.

Variable cfg : Config.
Variable rt : Runtime.

Lemma model_to_wf rid target s s' res :
  model_to rt rid target s = (s', res) -> wf s -> wf s'.
Proof.
  intros (Hd & Hst & Hlen & _)%model_to_inv. by apply wf_same_containers.
Qed.

Lemma enter_wf L s s' res :
  __enter__ cfg rt L s = (s', res) -> wf s -> wf s'.
Proof.
  unfold __enter__. intros H Hwf.
  apply bind_inv in H as [(s0 & m & Hm & H)|(e & Hm & _)].
  2:{ unfold deref in Hm. destruct (heap s !! lk_model L); by injection Hm as <-. }
  assert (s0 = s) as ->.
  { unfold deref in Hm. destruct (heap s !! lk_model L); by injection Hm as <-. }
  destruct (negb (hasattr_to (model m))); [by injection H as <-|].
  destruct (gpu_load L).
  - apply bind_inv in H as [(s1 & [] & Hlock & H)|(e & Hlock & _)];
      [|by eapply lock_wf].
    apply lock_wf in Hlock; [|done].
    assert (Htry : forall s2 res2,
      try_except_reraise (promote cfg rt L) (unlock (cache_entry L)) s1 = (s2, res2) ->
      wf s2).
    { intros s2 res2. unfold try_except_reraise.
      destruct (promote cfg rt L s1) as [sp [[]|e]] eqn:Hp.
      - intros [= <- _]. by apply promote_inv in Hp as [? _].
      - destruct (unlock (cache_entry L) sp) as [su resu] eqn:Hu.
        apply promote_inv in Hp as [Hwfp _]; [|done].
        apply unlock_wf in Hu; [|done]. by destruct resu; intros [= <- _]. }
    apply bind_inv in H as [(s2 & [] & Ht & H)|(e & Ht & _)]; [|by eapply Htry].
    unfold ret in H. injection H as <-. by eapply Htry.
  - apply bind_inv in H as [(s1 & ce & Hce & H)|(e & Hce & _)].
    2:{ unfold deref in Hce. destruct (heap s !! cache_entry L); by injection Hce as <-. }
    assert (s1 = s) as ->.
    { unfold deref in Hce. destruct (heap s !! cache_entry L); by injection Hce as <-. }
    destruct (loaded (storage_device cfg) ce && negb (locked ce)).
    + apply bind_inv in H as [(s2 & [] & Hto & H)|(e & Hto & _)];
        [|by eapply model_to_wf].
      unfold ret in H. injection H as <-. by eapply model_to_wf.
    + munfold. by injection H as <-.
Qed.

Lemma exit_wf L s s' res :
  __exit__ cfg rt L s = (s', res) -> wf s -> wf s'.
Proof.
  unfold __exit__. intros H Hwf.
  apply bind_inv in H as [(s0 & m & Hm & H)|(e & Hm & _)].
  2:{ unfold deref in Hm. destruct (heap s !! lk_model L); by injection Hm as <-. }
  assert (s0 = s) as ->.
  { unfold deref in Hm. destruct (heap s !! lk_model L); by injection Hm as <-. }
  destruct (negb (hasattr_to (model m))); [by injection H as <-|].
  apply bind_inv in H as [(s1 & [] & Hu & H)|(e & Hu & _)]; [|by eapply unlock_wf].
  apply unlock_wf in Hu; [|done].
  destruct (negb (lazy_offloading cfg)).
  - eapply offload_wf; [exact Hu|exact H].
  - by injection H as <-.
Qed.

(** C5: from a state that satisfies the invariant (the LRU stack has no
    duplicate and holds exactly the keys of the dictionary), every call of
    [get_model] that returns, hit or miss, leaves its key at the
    most-recently-used end of the stack; [_make_cache_room] examines a
    prefix of the stack, from the least-recently-used end, and takes out of
    it the keys that pass the eviction test; and every operation, whatever
    its outcome, leaves a state that satisfies the invariant. *)
Theorem lru_order_and_invariant (s : State) :
  wf s ->
  (forall path cls sub gpu s' L,
     get_model cfg rt path cls sub gpu s = (s', Ok L) ->
     key L = get_key path sub /\
     last (_cache_stack s') = Some (get_key path sub)) /\
  (forall n, exists s' scanned rest,
     _make_cache_room cfg rt n s = (s', Ok tt) /\
     _cache_stack s = scanned ++ rest /\
     _cache_stack s' =
       List.filter (fun k => negb (evictable rt s k)) scanned ++ rest) /\
  (forall path cls sub gpu s' res,
     get_model cfg rt path cls sub gpu s = (s', res) -> wf s') /\
  (forall n s' res, _make_cache_room cfg rt n s = (s', res) -> wf s') /\
  (forall n s' res, _offload_unlocked_models cfg rt n s = (s', res) -> wf s') /\
  (forall L s' res, __enter__ cfg rt L s = (s', res) -> wf s') /\
  (forall L s' res, __exit__ cfg rt L s = (s', res) -> wf s') /\
  (forall k s' res, uncache_model k s = (s', res) -> wf s').
Proof.
  intros Hwf. split_and!.
  - intros path cls sub gpu s' L Hrun.
    destruct (get_model_spec _ _ _ _ _ _ _ _ _ Hwf Hrun) as [_ H].
    destruct (H L eq_refl) as (? & ? & _). by split.
  - intros n.
    destruct (make_cache_room_spec cfg rt n s Hwf)
      as (s' & scanned & rest & cur' & Hrun & Hst & Hst' & _).
    by exists s', scanned, rest.
  - intros path cls sub gpu s' res Hrun.
    by destruct (get_model_spec _ _ _ _ _ _ _ _ _ Hwf Hrun).
  - intros n s' res Hrun.
    destruct (make_cache_room_spec cfg rt n s Hwf)
      as (s1 & scanned & rest & cur' & Hrun1 & _ & _ & _ & _ & _ & _ & _ & Hwf1 & _).
    rewrite Hrun1 in Hrun. by injection Hrun as <-.
  - intros n s' res Hrun. by eapply offload_wf.
  - intros L s' res Hrun. by eapply enter_wf.
  - intros L s' res Hrun. by eapply exit_wf.
  - intros k s' res Hrun. by eapply uncache_model_wf.
Qed.

End Invariant.

Lemma lru_order_and_invariant_witness :
  exists s' L,
    get_model ex_cfg ex_rt "unet" ex_provider None true (ex_two 0) = (s', Ok L) /\
    _cache_stack (ex_two 0) = ["unet"; "vae"] /\
    last (_cache_stack s') = Some "unet" /\
    wf s'.
Proof.
  eexists _, _. split; [vm_compute; reflexivity|]. split; [reflexivity|].
  destruct (lru_order_and_invariant ex_cfg ex_rt (ex_two 0) (ex_two_wf 0))
    as (H1 & _ & H3 & _).
  split.
  - eapply (H1 "unet" ex_provider None true). vm_compute. reflexivity.
  - eapply (H3 "unet" ex_provider None true). vm_compute. reflexivity.
Defined.


(** ** The specifications at concrete states *)

Lemma ex_onnx_wf : wf ex_onnx.
Proof.
  split; simpl.
  - apply NoDup_singleton.
  - apply NoDup_singleton.
  - done.
  - apply NoDup_singleton.
  - intros rid ->%list_elem_of_singleton. by eexists.
Qed.

Lemma make_cache_room_target_or_exhausted_witness :
  exists s' total,
    _make_cache_room ex_cfg ex_rt (4 * GIG) ex_onnx = (s', Ok tt) /\
    total_size s' = Some total /\
    ((inject_Z (total + 4 * GIG) <= max_cache_size ex_cfg * inject_Z GIG)%Q \/
     (forall k rid, dict_get (_cached_models s') k = Some rid ->
        exists r, dict_get (_cached_models ex_onnx) k = Some rid /\
                  heap ex_onnx !! rid = Some r /\
                  evict_test k r (getrefcount ex_rt k) = false)).
Proof.
  exact (make_cache_room_target_or_exhausted ex_cfg ex_rt (4 * GIG) ex_onnx
           ex_onnx_wf).
Defined.

Lemma offload_unlocked_order_and_stop_witness :
  let run := _offload_unlocked_models ex_cfg ex_rt_free 0 (ex_two 1) in
  run.2 = Ok tt /\
  exists calls,
    to_log run.1 = to_log (ex_two 1) ++ calls /\
    call_rid <$> calls = [1%nat] /\
    StronglySorted Z.le (record_size (heap (ex_two 1)) <$> (call_rid <$> calls)) /\
    Forall (offload_call_ok ex_cfg
              (max_vram_cache_size ex_cfg * inject_Z GIG)%Q (ex_two 1)) calls.
Proof.
  intros run.
  destruct (offload_unlocked_order_and_stop ex_cfg ex_rt_free 0 (ex_two 1) _ _
              (ex_two_wf 1) (surjective_pairing _))
    as (calls & Hlog & _ & Hsorted & Hall & _ & _ & Hexact & Hret).
  assert (Hok : run.2 = Ok tt).
  { apply Hret; [done|].
    intros rid r [->|[->|[]%elem_of_nil]%elem_of_cons]%elem_of_cons [= <-]; done. }
  split; [exact Hok|]. exists calls. split_and!; try done.
  destruct Hexact as (scanned & rest & Hitems & Hm). fold run in Hm.
  rewrite Hok in Hm. cbn zeta in Hm. destruct Hm as [Hrids [->|Hle]].
  - rewrite app_nil_r in Hitems. rewrite <- Hitems in Hrids. exact Hrids.
  - vm_compute in Hle. discriminate Hle.
Defined.


(** ** The bound on the iterations of [make_room_loop] is never reached

    This is about the scan over the stack as it is modelled, without the
    nested loop that clears the frames. *)

Lemma list_del_at_length {A} (pos : nat) (l : list A) :
  (pos < length l)%nat -> length (list_del_at pos l) = pred (length l).
Proof.
  revert pos. induction l as [|x l IH]; intros [|pos]; simpl; try lia.
  intros Hlt. rewrite IH by lia. lia.
Qed.

Lemma make_room_loop_terminates (rt : Runtime) (n : Z) (maxq : Q) :
  forall fuel cur pos s,
    (length (_cache_stack s) - pos < fuel)%nat ->
    (make_room_loop rt fuel n maxq cur pos s).2 <> Raise Diverged.
Proof.
  induction fuel as [|fuel IH]; intros cur pos s Hfuel; [lia|].
  simpl. unfold bind at 1. unfold get at 1.
  destruct (Qgtb (inject_Z (cur + n)) maxq); simpl; [|done].
  destruct (Nat.ltb_spec pos (length (_cache_stack s))) as [Hlt|Hge]; [|done].
  destruct (_cache_stack s !! pos) as [k|]; [|done].
  destruct (dict_get (_cached_models s) k) as [rid|]; [|done].
  unfold bind at 1. unfold deref at 1.
  destruct (heap s !! rid) as [r|]; [|done].
  destruct (evict_test k r (getrefcount rt k)).
  - munfold. apply IH. simpl. rewrite list_del_at_length by done. lia.
  - apply IH. lia.
Qed.

Lemma make_cache_room_terminates (cfg : Config) (rt : Runtime) (n : Z)
    (s : State) :
  (_make_cache_room cfg rt n s).2 <> Raise Diverged.
Proof.
  unfold _make_cache_room, _cache_size. unfold bind at 1.
  destruct (sum_sizes _ _) as [cur|]; [|done].
  unfold bind at 1. unfold get at 1. apply make_room_loop_terminates. lia.
Qed.

Lemma init_state_wf vram0 : wf (init_state vram0).
Proof.
  split; simpl; try apply NoDup_nil_2; try done.
  by intros rid ?%elem_of_nil.
Qed.


(** * Further properties of the code *)

(** ** What the transfers leave alone *)

Lemma same_shape_refl s : same_shape s s.
Proof. by intros rid. Qed.

Lemma same_shape_trans s1 s2 s3 :
  same_shape s1 s2 -> same_shape s2 s3 -> same_shape s1 s3.
Proof. intros H12 H23 rid. rewrite H23. apply H12. Qed.

Lemma same_shape_locks s s' : same_shape s s' -> same_locks s s'.
Proof.
  intros H rid. specialize (H rid). unfold locks_at.
  destruct (heap s' !! rid), (heap s !! rid); simpl in *; try done.
  unfold record_shape in H. congruence.
Qed.

Lemma same_shape_total s s' :
  same_shape s s' -> _cached_models s' = _cached_models s ->
  total_size s' = total_size s.
Proof.
  intros H Hd. unfold total_size. rewrite Hd.
  induction (dict_values (_cached_models s)) as [|rid l IH]; simpl; [done|].
  rewrite IH. specialize (H rid).
  destruct (heap s' !! rid), (heap s !! rid); simpl in *; try done.
  unfold record_shape in H. by injection H as -> _ _.
Qed.

Section ShapeFrame.

Variable cfg : Config.
Variable rt : Runtime.

Lemma model_to_same_shape rid target s s' res :
  model_to rt rid target s = (s', res) -> same_shape s s'.
Proof.
  intros H. pose proof H as (_ & _ & _ & Hframe & Hcase)%model_to_inv.
  intros rid'. destruct (decide (rid' = rid)) as [->|Hne]; [|by rewrite Hframe].
  destruct Hcase as [(_ & -> & _)|(_ & [(_ & r & o & Hr & Hm & ->)|(-> & _)])];
    try done.
  rewrite Hr. simpl. unfold record_shape. simpl. by rewrite Hm.
Qed.

Lemma offload_loop_same_shape reserved items : forall vram_in_use s s' res,
  offload_loop cfg rt reserved items vram_in_use s = (s', res) ->
  same_shape s s'.
Proof.
  induction items as [|[k rid] items IH]; intros v s s' res; simpl.
  - intros [= <- _]. apply same_shape_refl.
  - destruct (Qle_bool _ _); [intros [= <- _]; apply same_shape_refl|].
    unfold bind at 1. unfold deref at 1.
    destruct (heap s !! rid) as [r|] eqn:Hr;
      [|intros [= <- _]; apply same_shape_refl].
    destruct (negb (locked r) && loaded (storage_device cfg) r); [|by apply IH].
    unfold bind at 1.
    destruct (with_VRAMUsage _ s) as [s1 [z|e]] eqn:Hw.
    + intros Hrest. apply IH in Hrest.
      apply with_VRAMUsage_inv in Hw as [[Hb _]|(e & _ & [=])].
      apply model_to_same_shape in Hb. by eapply same_shape_trans.
    + intros [= <- _].
      apply with_VRAMUsage_inv in Hw as [[_ [=]]|(e' & Hb & _)].
      by apply model_to_same_shape in Hb.
Qed.

Lemma offload_same_shape n s s' res :
  _offload_unlocked_models cfg rt n s = (s', res) -> same_shape s s'.
Proof.
  unfold _offload_unlocked_models. unfold bind, get.
  destruct (forallb _ _); [apply offload_loop_same_shape|].
  intros [= <- _]. apply same_shape_refl.
Qed.

Lemma promote_same_shape L s s' res :
  promote cfg rt L s = (s', res) -> same_shape s s'.
Proof.
  unfold promote. intros H.
  apply bind_inv in H as [(s1 & [] & Hoff & H)|(e & Hoff & _)].
  - assert (Hs1 : same_shape s s1).
    { destruct (lazy_offloading cfg); [by eapply offload_same_shape|].
      injection Hoff as <-. apply same_shape_refl. }
    apply bind_inv in H as [(s2 & d & Hd & H)|(e & Hd & _)].
    + assert (s2 = s1) as ->.
      { unfold model_device in Hd. munfold. destruct (heap s1 !! lk_model L) as [r|];
          [|done]. destruct (model r) as [o|]; [|done].
        destruct (device o); by injection Hd as <-. }
      destruct (negb _); [|injection H as <-; done].
      apply bind_inv in H as [(s3 & z & Hw & [= <- _])|(e & Hw & _)].
      * apply with_VRAMUsage_inv in Hw as [[Hb _]|(e & _ & [=])].
        apply model_to_same_shape in Hb. by eapply same_shape_trans.
      * apply with_VRAMUsage_inv in Hw as [[_ [=]]|(e' & Hb & _)].
        apply model_to_same_shape in Hb. by eapply same_shape_trans.
    + assert (s' = s1) as ->; [|done].
      unfold model_device in Hd. munfold. destruct (heap s1 !! lk_model L) as [r|];
        [|by injection Hd as <-]. destruct (model r) as [o|]; [|by injection Hd as <-].
      destruct (device o); by injection Hd as <-.
  - destruct (lazy_offloading cfg); [by eapply offload_same_shape|done].
Qed.

(** X1: [_offload_unlocked_models] never evicts: from a state that satisfies
    the invariant, whatever its outcome, the dictionary and the LRU stack are
    as they were, no record has changed its size or its lock count, and the
    total size of the cache is the same. *)
Theorem offload_keeps_registry (n : Z) (s s' : State) (res : Res unit) :
  wf s ->
  _offload_unlocked_models cfg rt n s = (s', res) ->
  _cached_models s' = _cached_models s /\
  _cache_stack s' = _cache_stack s /\
  same_shape s s' /\
  total_size s' = total_size s.
Proof.
  intros Hwf Hrun. pose proof (offload_same_shape _ _ _ _ Hrun) as Hshape.
  apply offload_inv in Hrun; [|done].
  apply offload_loop_spec in Hrun as (calls & _ & _ & _ & _ & _ & Hd & Hst & _).
  2:{ rewrite sorted_by_perm. apply Hwf. }
  split_and!; try done. by apply same_shape_total.
Qed.

End ShapeFrame.

Lemma offload_keeps_registry_witness :
  let s' := (_offload_unlocked_models ex_cfg ex_rt_free 0 (ex_two 1)).1 in
  _cached_models s' = _cached_models (ex_two 1) /\
  _cache_stack s' = _cache_stack (ex_two 1) /\
  same_shape (ex_two 1) s' /\
  total_size s' = total_size (ex_two 1).
Proof.
  exact (offload_keeps_registry ex_cfg ex_rt_free 0 (ex_two 1) _ _
           (ex_two_wf 1) (surjective_pairing _)).
Defined.


(** ** The guard *)

Lemma deref_inv rid s s' res :
  deref rid s = (s', res) ->
  s' = s /\ ((exists r, heap s !! rid = Some r /\ res = Ok r) \/
             (heap s !! rid = None /\ res = Raise ReferenceError)).
Proof.
  unfold deref. destruct (heap s !! rid) as [r|]; intros [= <- <-];
    (split; [done|]); [left; eauto|by right].
Qed.

Lemma lock_frame rid s s' res :
  lock rid s = (s', res) ->
  forall rid', rid' <> rid -> heap s' !! rid' = heap s !! rid'.
Proof.
  destruct (heap s !! rid) as [r|] eqn:Hr.
  - rewrite (lock_spec _ _ _ Hr). intros [= <- _] rid' Hne. simpl.
    by rewrite list_lookup_insert_ne.
  - unfold lock. munfold. rewrite Hr. by intros [= <- _].
Qed.

Lemma unlock_frame rid s s' res :
  unlock rid s = (s', res) ->
  forall rid', rid' <> rid -> heap s' !! rid' = heap s !! rid'.
Proof.
  destruct (heap s !! rid) as [r|] eqn:Hr.
  - rewrite (unlock_spec _ _ _ Hr). intros [= <- _] rid' Hne. simpl.
    by rewrite list_lookup_insert_ne.
  - unfold unlock. munfold. rewrite Hr. by intros [= <- _].
Qed.

Section Guard.

Variable cfg : Config.
Variable rt : Runtime.

Lemma others_kept_lock L s s' res :
  lock (cache_entry L) s = (s', res) -> others_kept L s s'.
Proof. intros H rid Hne. unfold locks_at. by rewrite (lock_frame _ _ _ _ H). Qed.

Lemma others_kept_unlock L s s' res :
  unlock (cache_entry L) s = (s', res) -> others_kept L s s'.
Proof. intros H rid Hne. unfold locks_at. by rewrite (unlock_frame _ _ _ _ H). Qed.

Lemma others_kept_same L s s' : same_locks s s' -> others_kept L s s'.
Proof. intros H rid _. apply H. Qed.

Lemma others_kept_trans L s1 s2 s3 :
  others_kept L s1 s2 -> others_kept L s2 s3 -> others_kept L s1 s3.
Proof. intros H12 H23 rid Hne. rewrite H23 by done. by apply H12. Qed.

(** X2: a guard changes no lock count but that of its own record: whatever
    [__enter__] and [__exit__] do and however they end, the lock count of
    every other record of the store is what it was. *)
Theorem guard_touches_only_its_record (L : ModelLocker) (s s' : State)
    (rid : nat) :
  rid <> cache_entry L ->
  (forall res, __enter__ cfg rt L s = (s', res) ->
               locks_at s' rid = locks_at s rid) /\
  (forall res, __exit__ cfg rt L s = (s', res) ->
               locks_at s' rid = locks_at s rid).
Proof.
  intros Hne. split; intros res H.
  - assert (Hk : others_kept L s s'); [|by apply Hk].
    unfold __enter__ in H.
    apply bind_inv in H as [(s0 & m & [-> _]%deref_inv & H)|(e & [-> _]%deref_inv & _)];
      [|by apply others_kept_same, same_locks_refl].
    destruct (negb (hasattr_to (model m)));
      [injection H as <-; by apply others_kept_same, same_locks_refl|].
    destruct (gpu_load L).
    + apply bind_inv in H as [(s1 & [] & Hlock & H)|(e & Hlock & _)];
        [|by eapply others_kept_lock].
      apply others_kept_lock in Hlock.
      assert (Htry : forall s2 res2,
        try_except_reraise (promote cfg rt L) (unlock (cache_entry L)) s1 = (s2, res2) ->
        others_kept L s1 s2).
      { intros s2 res2. unfold try_except_reraise.
        destruct (promote cfg rt L s1) as [sp [[]|e]] eqn:Hp.
        - intros [= <- _]. by eapply others_kept_same, promote_same_locks.
        - destruct (unlock (cache_entry L) sp) as [su resu] eqn:Hu.
          apply promote_same_locks in Hp. apply others_kept_unlock in Hu.
          assert (Hsu : others_kept L s1 su).
          { eapply others_kept_trans; [by apply others_kept_same|done]. }
          by destruct resu; intros [= <- _]. }
      apply bind_inv in H as [(s2 & [] & Ht & [= <- _])|(e & Ht & _)];
        eapply others_kept_trans; eauto.
    + apply bind_inv in H as [(s1 & ce & [-> _]%deref_inv & H)|(e & [-> _]%deref_inv & _)];
        [|by apply others_kept_same, same_locks_refl].
      destruct (loaded (storage_device cfg) ce && negb (locked ce)).
      * apply bind_inv in H as [(s2 & [] & Hto & [= <- _])|(e & Hto & _)];
          by eapply others_kept_same, model_to_same_locks.
      * munfold. injection H as <-. by apply others_kept_same, same_locks_refl.
  - assert (Hk : others_kept L s s'); [|by apply Hk].
    unfold __exit__ in H.
    apply bind_inv in H as [(s0 & m & [-> _]%deref_inv & H)|(e & [-> _]%deref_inv & _)];
      [|by apply others_kept_same, same_locks_refl].
    destruct (negb (hasattr_to (model m)));
      [injection H as <-; by apply others_kept_same, same_locks_refl|].
    apply bind_inv in H as [(s1 & [] & Hu & H)|(e & Hu & _)];
      [|by eapply others_kept_unlock].
    apply others_kept_unlock in Hu.
    destruct (negb (lazy_offloading cfg)).
    + apply offload_same_locks in H. eapply others_kept_trans; [done|].
      by apply others_kept_same.
    + by injection H as <-.
Qed.

End Guard.

Lemma guard_touches_only_its_record_witness :
  locks_at (__exit__ ex_cfg_eager ex_rt_free
              (mkModelLocker true "vae" 1 GIG 1) (ex_two 3)).1 0
  = locks_at (ex_two 3) 0.
Proof.
  destruct (guard_touches_only_its_record ex_cfg_eager ex_rt_free
              (mkModelLocker true "vae" 1 GIG 1) (ex_two 3)
              (__exit__ ex_cfg_eager ex_rt_free
                 (mkModelLocker true "vae" 1 GIG 1) (ex_two 3)).1
              0%nat ltac:(simpl; lia)) as [_ H].
  apply (H _ (surjective_pairing _)).
Defined.


Section GuardPairing.

Variable cfg : Config.
Variable rt : Runtime.

Lemma shape_lookup s s' rid r :
  same_shape s s' -> heap s !! rid = Some r ->
  exists r', heap s' !! rid = Some r' /\ size r' = size r /\
             _locks r' = _locks r /\ hasattr_to (model r') = hasattr_to (model r).
Proof.
  intros H Hr. specialize (H rid). rewrite Hr in H.
  destruct (heap s' !! rid) as [r'|]; [|done]. simpl in H.
  unfold record_shape in H. injection H as ? ? ?. by exists r'.
Qed.

(** X3: a guard made with [gpu_load] set is balanced.  From a state that
    satisfies the invariant, when [__enter__] returns it returns the model,
    the lock count of the entry is one more than before and the model
    reports the execution device; the [__exit__] that follows brings the
    count back to what it was before [__enter__], and with lazy offloading
    on and a count that was not negative it returns. *)
Theorem gpu_guard_is_balanced (L : ModelLocker) (s s1 : State) (a : nat)
    (m r : _CacheRecord) :
  wf s ->
  gpu_load L = true ->
  heap s !! lk_model L = Some m -> hasattr_to (model m) = true ->
  heap s !! cache_entry L = Some r ->
  __enter__ cfg rt L s = (s1, Ok a) ->
  a = lk_model L /\
  locks_at s1 (cache_entry L) = Some (_locks r + 1) /\
  (exists m1 o1, heap s1 !! lk_model L = Some m1 /\ model m1 = Some o1 /\
                 device o1 = Some (execution_device cfg)) /\
  (forall s2 res, __exit__ cfg rt L s1 = (s2, res) ->
     locks_at s2 (cache_entry L) = Some (_locks r) /\
     (0 <= _locks r -> lazy_offloading cfg = true -> res = Ok tt)).
Proof.
  intros Hwf Hgpu Hm Hto Hr. unfold __enter__.
  unfold bind at 1. unfold deref at 1. rewrite Hm, Hto, Hgpu. simpl.
  unfold bind at 1. rewrite (lock_spec _ _ _ Hr).
  set (s0 := set_heap s _).
  assert (Hwf0 : wf s0).
  { eapply (lock_wf (cache_entry L) s); [by rewrite (lock_spec _ _ _ Hr)|done]. }
  assert (Hr0 : heap s0 !! cache_entry L = Some (set_locks r (_locks r + 1))).
  { subst s0. simpl. apply list_lookup_insert_eq. by eapply lookup_lt_Some. }
  assert (Hm0 : exists m0, heap s0 !! lk_model L = Some m0 /\
                           hasattr_to (model m0) = true).
  { destruct (decide (lk_model L = cache_entry L)) as [Heq|Hne].
    - rewrite Heq, Hr0. eexists. split; [done|]. simpl.
      rewrite Heq, Hr in Hm. by injection Hm as <-.
    - exists m. split; [|done]. subst s0. simpl.
      by rewrite list_lookup_insert_ne. }
  destruct Hm0 as (m0 & Hm0 & Hto0).
  unfold bind, try_except_reraise, ret.
  destruct (promote cfg rt L s0) as [sp [[]|e0]] eqn:Hp.
  2:{ by destruct (unlock (cache_entry L) sp) as [su [[]|e]]. }
  intros [= <- <-].
  pose proof (promote_same_shape _ _ _ _ _ _ Hp) as Hshape.
  destruct (promote_inv _ _ _ _ _ _ Hwf0 Hp) as [Hwf1 Hres].
  destruct (shape_lookup _ _ _ _ Hshape Hr0) as (r1 & Hr1 & _ & Hl1 & _).
  destruct (shape_lookup _ _ _ _ Hshape Hm0) as (m1 & Hm1 & _ & _ & Hto1).
  simpl in Hl1.
  split_and!; try done.
  - unfold locks_at. rewrite Hr1. simpl. by rewrite Hl1.
  - by apply Hres.
  - intros s2 res. unfold __exit__.
    unfold bind at 1. unfold deref at 1. rewrite Hm1, Hto1, Hto0. simpl.
    unfold bind at 1. rewrite (unlock_spec _ _ _ Hr1). rewrite Hl1.
    replace (_locks r + 1 - 1) with (_locks r) by lia.
    set (su := set_heap sp _).
    assert (Hlu : locks_at su (cache_entry L) = Some (_locks r)).
    { subst su. by apply locks_at_set_heap_insert. }
    destruct (Z.leb_spec 0 (_locks r)) as [Hle|Hlt].
    + destruct (lazy_offloading cfg); simpl.
      * intros [= <- <-]. by split.
      * intros Hoff. apply offload_same_locks in Hoff.
        split; [by rewrite Hoff|done].
    + intros [= <- <-]. split; [done|lia].
Qed.

(** X4: with lazy offloading off, an [__exit__] that returns leaves the
    execution device within its reserve whenever it can: from a state that
    satisfies the invariant, for a model with a [to] method, either the VRAM
    in use is at or below the reserve, or no cached record is both unlocked
    and loaded. *)
Theorem eager_exit_frees_vram (L : ModelLocker) (s s' : State)
    (m : _CacheRecord) :
  wf s ->
  lazy_offloading cfg = false ->
  heap s !! lk_model L = Some m -> hasattr_to (model m) = true ->
  __exit__ cfg rt L s = (s', Ok tt) ->
  Qle_bool (inject_Z (vram s')) (max_vram_cache_size cfg * inject_Z GIG) = true \/
  (forall rid r, rid ∈ dict_values (_cached_models s') ->
     heap s' !! rid = Some r ->
     locked r = true \/ loaded (storage_device cfg) r = false).
Proof.
  intros Hwf Hlazy Hm Hto. unfold __exit__.
  unfold bind at 1. unfold deref at 1. rewrite Hm, Hto, Hlazy. simpl.
  intros [(s1 & [] & Hu & Hoff)|(e & _ & [=])]%bind_inv.
  apply unlock_wf in Hu; [|done].
  apply offload_inv in Hoff; [|done].
  pose proof (sorted_by_perm (size_at (heap s1)) (_cached_models s1)) as Hperm.
  apply offload_loop_spec in Hoff as (calls & _ & _ & _ & _ & _ & Hd & _ & Hend).
  2:{ rewrite Hperm. apply Hu. }
  destruct (Hend eq_refl) as [Hle|Hno]; [by left|right].
  intros rid r Hin Hr. rewrite Hd in Hin.
  assert (Hin' : rid ∈ (sorted_by (size_at (heap s1)) (_cached_models s1)).*2)
    by (by rewrite Hperm).
  specialize (Hno rid r Hin' Hr).
  apply andb_false_iff in Hno as [Hl|Hld]; [left|by right].
  by apply negb_false_iff in Hl.
Qed.

(** X5: [__enter__] with [gpu_load] unset, on a model with a [to] method,
    changes no lock count.  When the entry is locked or is not loaded it
    changes nothing and returns the model; when it is loaded and unlocked it
    makes one transfer, of the model to the storage device, and a failure of
    that transfer reaches the caller. *)
Theorem enter_without_gpu_load (L : ModelLocker) (s s' : State)
    (res : Res nat) (m ce : _CacheRecord) :
  gpu_load L = false ->
  heap s !! lk_model L = Some m -> hasattr_to (model m) = true ->
  heap s !! cache_entry L = Some ce ->
  __enter__ cfg rt L s = (s', res) ->
  same_locks s s' /\
  (locked ce = true \/ loaded (storage_device cfg) ce = false ->
   s' = s /\ res = Ok (lk_model L)) /\
  (locked ce = false -> loaded (storage_device cfg) ce = true ->
   to_log s' = to_log s ++ [mkToCall (lk_model L) (storage_device cfg) (vram s)] /\
   (if to_ok (to_outcome rt (length (to_log s)))
    then res = Ok (lk_model L) else res = Raise TransferError)).
Proof.
  intros Hgpu Hm Hto Hce. unfold __enter__.
  unfold bind at 1. unfold deref at 1. rewrite Hm, Hto, Hgpu. simpl.
  unfold bind at 1. unfold deref at 1. rewrite Hce.
  destruct (locked ce) eqn:Hl; destruct (loaded (storage_device cfg) ce) eqn:Hld;
    simpl.
  1,2,4: munfold; intros [= <- <-]; split_and!; try done;
         try apply same_locks_refl; by intros [[=]|[=]].
  intros H. split; [|split; [by intros [[=]|[=]]|intros _ _]].
  - apply bind_inv in H as [(s2 & [] & Hmt & [= <- _])|(e & Hmt & _)];
      by eapply model_to_same_locks.
  - revert H. unfold bind, model_to, bind, deref. rewrite Hm.
    destruct (model m) as [o|]; [|done]. simpl in Hto. rewrite Hto.
    unfold get, modify, store, modify, raise, ret. simpl.
    destruct (to_ok _); intros [= <- <-]; by split.
Qed.

End GuardPairing.

Lemma gpu_guard_is_balanced_witness :
  exists s1 s2,
    __enter__ ex_cfg ex_rt (ex_locker true) (ex_one "cpu" 0) = (s1, Ok 0%nat) /\
    locks_at s1 0 = Some 1 /\
    __exit__ ex_cfg ex_rt (ex_locker true) s1 = (s2, Ok tt) /\
    locks_at s2 0 = Some 0.
Proof.
  eexists _, _. split; [vm_compute; reflexivity|].
  destruct (gpu_guard_is_balanced ex_cfg ex_rt (ex_locker true) (ex_one "cpu" 0)
              _ 0%nat (mk_CacheRecord (4 * GIG) (Some (ex_torch "cpu")) 0)
              (mk_CacheRecord (4 * GIG) (Some (ex_torch "cpu")) 0)
              (ex_one_wf "cpu" 0) eq_refl eq_refl eq_refl eq_refl
              ltac:(vm_compute; reflexivity))
    as (_ & Hl1 & _ & Hexit).
  split; [exact Hl1|].
  destruct (Hexit _ _ (surjective_pairing _)) as [Hl2 Hok].
  split; [|exact Hl2].
  rewrite <- (Hok ltac:(simpl; lia) eq_refl). apply surjective_pairing.
Defined.

Lemma eager_exit_frees_vram_witness :
  let s' := (__exit__ ex_cfg_eager ex_rt_free ex_locker_unet (ex_two 1)).1 in
  Qle_bool (inject_Z (vram s'))
    (max_vram_cache_size ex_cfg_eager * inject_Z GIG) = true \/
  (forall rid r, rid ∈ dict_values (_cached_models s') ->
     heap s' !! rid = Some r ->
     locked r = true \/ loaded (storage_device ex_cfg_eager) r = false).
Proof.
  apply (eager_exit_frees_vram ex_cfg_eager ex_rt_free ex_locker_unet
           (ex_two 1) _
           (mk_CacheRecord (4 * GIG) (Some (ex_torch "cuda")) 1)
           (ex_two_wf 1) eq_refl eq_refl eq_refl).
  vm_compute. reflexivity.
Defined.

Lemma enter_without_gpu_load_witness :
  let run := __enter__ ex_cfg ex_rt (ex_locker false) (ex_one "cuda" 0) in
  same_locks (ex_one "cuda" 0) run.1 /\
  to_log run.1 = [mkToCall 0 "cpu" 0] /\ run.2 = Ok 0%nat.
Proof.
  destruct (enter_without_gpu_load ex_cfg ex_rt (ex_locker false)
              (ex_one "cuda" 0) _ _
              (mk_CacheRecord (4 * GIG) (Some (ex_torch "cuda")) 0)
              (mk_CacheRecord (4 * GIG) (Some (ex_torch "cuda")) 0)
              eq_refl eq_refl eq_refl eq_refl (surjective_pairing _))
    as (Hsl & _ & Hmove).
  destruct (Hmove eq_refl eq_refl) as [Hlog Hres].
  by split_and!.
Defined.


(** ** [uncache_model] *)

Lemma state_eta (s : State) :
  set_cached_models (set_cache_stack s (_cache_stack s)) (_cached_models s) = s.
Proof. by destruct s. Qed.

(** X6: [uncache_model] always returns and takes the key out of both
    containers, whatever the lock count of its record: from a state that
    satisfies the invariant, the key is afterwards in neither the dictionary
    nor the LRU stack, every other key keeps its record and its membership
    of the stack, the store is untouched, and for a key that was not cached
    the state is unchanged. *)
Theorem uncache_model_removes (cache_id : string) (s : State) :
  wf s ->
  exists s',
    uncache_model cache_id s = (s', Ok tt) /\
    (cache_id ∉ dict_keys (_cached_models s')) /\
    (cache_id ∉ _cache_stack s') /\
    (forall k, k <> cache_id ->
       dict_get (_cached_models s') k = dict_get (_cached_models s) k /\
       (k ∈ _cache_stack s' <-> k ∈ _cache_stack s)) /\
    heap s' = heap s /\
    wf s' /\
    (dict_get (_cached_models s) cache_id = None -> s' = s).
Proof.
  intros Hwf. eexists. split; [reflexivity|]. simpl.
  assert (Hwf' : wf (uncache_model cache_id s).1).
  { eapply uncache_model_wf; [apply surjective_pairing|done]. }
  simpl in Hwf'.
  assert (Hkey : cache_id ∉ dict_keys (dict_del (_cached_models s) cache_id)).
  { rewrite dict_keys_del by apply Hwf. by intros [_ ?]. }
  split_and!; try done.
  - intros Hin. apply Hkey. by apply Hwf' in Hin.
  - intros k Hne. split; [by apply dict_get_del_ne|].
    destruct (list_remove cache_id (_cache_stack s)) as [l|] eqn:Hrm; simpl; [|done].
    destruct (list_remove_Some _ _ _ Hrm (wf_stack_nodup _ Hwf)) as [_ Hin].
    rewrite Hin. tauto.
  - intros Hnone. rewrite (dict_del_absent _ _ Hnone).
    assert (Hrm : list_remove cache_id (_cache_stack s) = None).
    { apply list_remove_None. intros Hin. apply dict_get_None in Hnone.
      apply Hnone. by apply Hwf. }
    rewrite Hrm. simpl. apply state_eta.
Qed.

Lemma uncache_model_removes_witness :
  exists s',
    uncache_model "unet" (ex_two 1) = (s', Ok tt) /\
    locks_at (ex_two 1) 0 = Some 1 /\
    ("unet" ∉ dict_keys (_cached_models s')) /\
    ("unet" ∉ _cache_stack s').
Proof.
  destruct (uncache_model_removes "unet" (ex_two 1) (ex_two_wf 1))
    as (s' & Hrun & Hd & Hst & _).
  exists s'. by split_and!.
Defined.

(** ** Nested locks *)

Lemma repeat_lock_spec rid n : forall s r,
  heap s !! rid = Some r ->
  exists s', repeat_op n (lock rid) s = (s', Ok tt) /\
             heap s' !! rid = Some (set_locks r (_locks r + Z.of_nat n)) /\
             forall rid', rid' <> rid -> heap s' !! rid' = heap s !! rid'.
Proof.
  induction n as [|n IH]; intros s r Hr.
  - exists s. simpl. split; [done|]. split; [|done].
    rewrite Hr. f_equal. destruct r. unfold set_locks. simpl. f_equal. lia.
  - cbn [repeat_op]. unfold bind. rewrite (lock_spec _ _ _ Hr).
    set (s1 := set_heap s _).
    assert (Hr1 : heap s1 !! rid = Some (set_locks r (_locks r + 1))).
    { subst s1. simpl. apply list_lookup_insert_eq. by eapply lookup_lt_Some. }
    destruct (IH s1 _ Hr1) as (s' & Hrun & Hr' & Hframe).
    exists s'. split; [done|]. split.
    + rewrite Hr'. unfold set_locks. simpl. do 2 f_equal. lia.
    + intros rid' Hne. rewrite (Hframe rid' Hne). subst s1. simpl.
      by rewrite list_lookup_insert_ne.
Qed.

Lemma repeat_unlock_spec rid n : forall s r,
  heap s !! rid = Some r -> Z.of_nat n <= _locks r ->
  exists s', repeat_op n (unlock rid) s = (s', Ok tt) /\
             heap s' !! rid = Some (set_locks r (_locks r - Z.of_nat n)) /\
             forall rid', rid' <> rid -> heap s' !! rid' = heap s !! rid'.
Proof.
  induction n as [|n IH]; intros s r Hr Hle.
  - exists s. simpl. split; [done|]. split; [|done].
    rewrite Hr. f_equal. destruct r. unfold set_locks. simpl. f_equal. lia.
  - cbn [repeat_op]. unfold bind. rewrite (unlock_spec _ _ _ Hr).
    destruct (Z.leb_spec 0 (_locks r - 1)) as [_|Hlt]; [|lia].
    set (s1 := set_heap s _).
    assert (Hr1 : heap s1 !! rid = Some (set_locks r (_locks r - 1))).
    { subst s1. simpl. apply list_lookup_insert_eq. by eapply lookup_lt_Some. }
    destruct (IH s1 _ Hr1) as (s' & Hrun & Hr' & Hframe); [simpl; lia|].
    exists s'. split; [done|]. split.
    + rewrite Hr'. unfold set_locks. simpl. do 2 f_equal. lia.
    + intros rid' Hne. rewrite (Hframe rid' Hne). subst s1. simpl.
      by rewrite list_lookup_insert_ne.
Qed.

Lemma repeat_unlock_underflow rid : forall n s r,
  heap s !! rid = Some r -> _locks r = Z.of_nat n ->
  (repeat_op (S n) (unlock rid) s).2 = Raise AssertionError.
Proof.
  induction n as [|n IH]; intros s r Hr Hl; cbn [repeat_op]; unfold bind at 1;
    rewrite (unlock_spec _ _ _ Hr), Hl.
  - done.
  - destruct (Z.leb_spec 0 (Z.of_nat (S n) - 1)) as [_|Hlt]; [|lia].
    eapply IH.
    + simpl. apply list_lookup_insert_eq. by eapply lookup_lt_Some.
    + simpl. lia.
Qed.

(** X7: locks nest.  For a record whose count is not negative, [n] calls
    of [lock] followed by [n] calls of [unlock] all return and leave the
    record as it was; in between the count is [n] above its start, and one
    more [unlock] than the count allows raises the assertion error. *)
Theorem nested_locks_balance (rid : nat) (n : nat) (s : State)
    (r : _CacheRecord) :
  heap s !! rid = Some r ->
  0 <= _locks r ->
  exists s1 s2,
    repeat_op n (lock rid) s = (s1, Ok tt) /\
    locks_at s1 rid = Some (_locks r + Z.of_nat n) /\
    repeat_op n (unlock rid) s1 = (s2, Ok tt) /\
    heap s2 !! rid = Some r /\
    (_locks r = 0 ->
       (repeat_op (S n) (unlock rid) s1).2 = Raise AssertionError).
Proof.
  intros Hr Hpos.
  destruct (repeat_lock_spec rid n s r Hr) as (s1 & Hrun1 & Hr1 & _).
  destruct (repeat_unlock_spec rid n s1 _ Hr1) as (s2 & Hrun2 & Hr2 & _);
    [simpl; lia|].
  exists s1, s2. split_and!; try done.
  - unfold locks_at. by rewrite Hr1.
  - rewrite Hr2. f_equal. destruct r. unfold set_locks. simpl. f_equal. lia.
  - intros H0. apply (repeat_unlock_underflow rid n s1 _ Hr1). simpl. lia.
Qed.

Lemma nested_locks_balance_witness :
  exists s1 s2,
    repeat_op 3 (lock 0) (ex_one "cpu" 0) = (s1, Ok tt) /\
    locks_at s1 0 = Some 3 /\
    repeat_op 3 (unlock 0) s1 = (s2, Ok tt) /\
    locks_at s2 0 = Some 0.
Proof.
  destruct (nested_locks_balance 0 3 (ex_one "cpu" 0)
              (mk_CacheRecord (4 * GIG) (Some (ex_torch "cpu")) 0)
              eq_refl ltac:(simpl; lia))
    as (s1 & s2 & H1 & Hl1 & H2 & Hr2 & _).
  exists s1, s2. split_and!; try done. unfold locks_at. by rewrite Hr2.
Defined.


(** ** Keys and descriptors *)

Lemma string_app_inv_head (p a b : string) :
  (p ++ a)%string = (p ++ b)%string -> a = b.
Proof. induction p as [|c p IH]; simpl; [done|]. intros [= H]. by apply IH. Qed.

Lemma string_app_nonempty (p a : string) :
  (p ++ a)%string = p -> a = "".
Proof. induction p as [|c p IH]; simpl; [done|]. intros [= H]. by apply IH. Qed.

(** X8: for one model path, [get_key] tells the submodels apart: two
    submodels with the same key are the same, an empty submodel name counting
    as none; so the key of the whole model is never the key of one of its
    named submodels. *)
Theorem get_key_separates_submodels (model_path : string)
    (sub1 sub2 : option string) :
  sub1 <> Some "" -> sub2 <> Some "" ->
  get_key model_path sub1 = get_key model_path sub2 ->
  sub1 = sub2.
Proof.
  intros H1 H2. unfold get_key.
  destruct sub1 as [t1|], sub2 as [t2|]; try done.
  - destruct (String.eqb_spec t1 ""); [congruence|].
    destruct (String.eqb_spec t2 ""); [congruence|].
    intros H%string_app_inv_head. by injection H as ->.
  - destruct (String.eqb_spec t1 ""); [congruence|].
    by intros H%string_app_nonempty.
  - destruct (String.eqb_spec t2 ""); [congruence|].
    intros H. symmetry in H. by apply string_app_nonempty in H.
Qed.

Lemma get_key_separates_submodels_witness :
  Some "unet" = Some "unet" :> option string.
Proof.
  exact (get_key_separates_submodels "models/sd15" (Some "unet") (Some "unet")
           ltac:(done) ltac:(done) eq_refl).
Defined.

Lemma dict_get_set_eq {V} (d : dict V) k v : dict_get (dict_set d k v) k = Some v.
Proof.
  induction d as [|[k0 v0] d IH]; simpl.
  - by rewrite String.eqb_refl.
  - destruct (String.eqb k0 k) eqn:Hk; simpl; by rewrite Hk.
Qed.

Lemma dict_get_set_ne {V} (d : dict V) k k' v :
  k <> k' -> dict_get (dict_set d k v) k' = dict_get d k'.
Proof.
  intros Hne. induction d as [|[k0 v0] d IH]; simpl.
  - by destruct (String.eqb_spec k k').
  - destruct (String.eqb_spec k0 k) as [->|Hk]; simpl.
    + by destruct (String.eqb_spec k k').
    + by rewrite IH.
Qed.

(** X9: the descriptor of a model path is built once.  The first
    [_get_model_info] for a path keeps the descriptor it is given; every
    later call for that path returns the kept one, whatever class it is
    called with, and changes nothing; the descriptors of the other paths are
    not touched. *)
Theorem model_info_is_memoised (model_path : string) (c1 c2 : ModelBase)
    (s : State) :
  dict_get (model_infos s) (get_key model_path None) = None ->
  exists s1,
    _get_model_info model_path c1 s = (s1, Ok c1) /\
    _get_model_info model_path c2 s1 = (s1, Ok c1) /\
    same_registry s s1 /\
    (forall p, p <> model_path ->
       dict_get (model_infos s1) (get_key p None)
       = dict_get (model_infos s) (get_key p None)).
Proof.
  intros Hnone. unfold _get_model_info. munfold. rewrite Hnone. simpl.
  eexists. split; [reflexivity|]. simpl. rewrite dict_get_set_eq.
  split; [done|]. split; [by repeat split|].
  intros p Hne. by apply dict_get_set_ne.
Qed.

Lemma model_info_is_memoised_witness :
  exists s1,
    _get_model_info "sdxl" ex_provider (ex_one "cpu" 0) = (s1, Ok ex_provider) /\
    _get_model_info "sdxl" ex_provider_failing s1 = (s1, Ok ex_provider).
Proof.
  destruct (model_info_is_memoised "sdxl" ex_provider ex_provider_failing
              (ex_one "cpu" 0) eq_refl) as (s1 & H1 & H2 & _).
  by exists s1.
Defined.


(** ** How much [_make_cache_room] evicts *)

Lemma dict_del_length {V} (d : dict V) k v :
  dict_get d k = Some v -> length d = S (length (dict_del d k)).
Proof.
  induction d as [|[k0 v0] d IH]; simpl; [done|].
  destruct (String.eqb k0 k); [done|]. intros H. simpl. by rewrite <- IH.
Qed.

Lemma Qgtb_true a b : Qgtb a b = true -> (b < a)%Q.
Proof.
  unfold Qgtb. intros H%negb_true_iff. apply Qnot_le_lt. intros Hle.
  apply Qle_bool_iff in Hle. congruence.
Qed.

Section Evictions.

Variable cfg : Config.
Variable rt : Runtime.

Lemma make_room_loop_evictions n maxq : forall rest fuel pre s cur,
  wf s -> _cache_stack s = pre ++ rest -> (length rest < fuel)%nat ->
  total_size s = Some cur ->
  exists s' cur',
    make_room_loop rt fuel n maxq cur (length pre) s = (s', Ok tt) /\
    total_size s' = Some cur' /\
    hits <$> stats s' = hits <$> stats s /\
    misses <$> stats s' = misses <$> stats s /\
    cleared <$> stats s' =
      (fun st => cleared st + (Z.of_nat (length (_cached_models s))
                               - Z.of_nat (length (_cached_models s'))))
      <$> stats s /\
    (s' = s \/
     exists k rid r,
       dict_get (_cached_models s) k = Some rid /\ heap s !! rid = Some r /\
       (k ∉ dict_keys (_cached_models s')) /\
       Qgtb (inject_Z (cur' + size r + n)) maxq = true).
Proof.
  assert (Hstop : forall s cur fuel pos,
    make_room_loop rt (S fuel) n maxq cur pos s = (s, Ok tt) ->
    total_size s = Some cur ->
    exists s' cur',
      make_room_loop rt (S fuel) n maxq cur pos s = (s', Ok tt) /\
      total_size s' = Some cur' /\
      hits <$> stats s' = hits <$> stats s /\
      misses <$> stats s' = misses <$> stats s /\
      cleared <$> stats s' =
        (fun st => cleared st + (Z.of_nat (length (_cached_models s))
                                 - Z.of_nat (length (_cached_models s'))))
        <$> stats s /\
      (s' = s \/
       exists k rid r,
         dict_get (_cached_models s) k = Some rid /\ heap s !! rid = Some r /\
         (k ∉ dict_keys (_cached_models s')) /\
         Qgtb (inject_Z (cur' + size r + n)) maxq = true)).
  { intros s cur fuel pos Hrun Hcur. exists s, cur. split_and!; try done; [|by left].
    destruct (stats s); simpl; try done. f_equal. lia. }
  induction rest as [|k rest IH]; intros fuel pre s cur Hwf Hst Hfuel Hcur;
    (destruct fuel as [|fuel]; [simpl in Hfuel; lia|]).
  - apply Hstop; [|done]. apply make_room_loop_stop. right.
    rewrite Hst, app_nil_r. done.
  - destruct (Qgtb (inject_Z (cur + n)) maxq) eqn:Hq.
    2:{ apply Hstop; [|done]. apply make_room_loop_stop. by left. }
    assert (Hpos : _cache_stack s !! length pre = Some k).
    { rewrite Hst. by apply list_lookup_middle. }
    assert (Hk : k ∈ dict_keys (_cached_models s)).
    { apply Hwf. rewrite Hst. apply elem_of_app. right. by left. }
    destruct (dict_get_is_Some _ _ Hk) as [rid Hrid].
    destruct (wf_values_valid _ Hwf rid) as [r Hr]; [by eapply dict_get_value|].
    pose proof (make_room_loop_step rt fuel n maxq cur _ s k rid r Hq Hpos Hrid Hr)
      as Hstep.
    simpl in Hfuel.
    destruct (evict_test k r (getrefcount rt k)) eqn:Htest.
    + set (s1 := evict_state (length pre) k s) in *.
      assert (Hst1 : _cache_stack s1 = pre ++ rest).
      { subst s1. simpl. rewrite Hst. apply list_del_at_middle. }
      assert (Hd1 : _cached_models s1 = dict_del (_cached_models s) k) by done.
      assert (Hh1 : heap s1 = heap s) by done.
      assert (Hwf1 : wf s1) by (by eapply wf_evict).
      assert (Hcur1 : total_size s1 = Some (cur - size r)).
      { unfold total_size. rewrite Hd1, Hh1. by eapply sum_sizes_del. }
      assert (Hknot : k ∉ dict_keys (_cached_models s1)).
      { rewrite Hd1, dict_keys_del by apply Hwf. by intros [_ ?]. }
      destruct (IH fuel pre s1 (cur - size r) Hwf1 Hst1 ltac:(lia) Hcur1)
        as (s' & cur' & Hrun & Hcur' & Hhits & Hmiss & Hcl & Hev).
      exists s', cur'. split; [by rewrite Hstep|]. split; [done|].
      split_and!.
      * rewrite Hhits. subst s1. simpl. by destruct (stats s).
      * rewrite Hmiss. subst s1. simpl. by destruct (stats s).
      * rewrite Hcl, Hd1. rewrite (dict_del_length _ _ _ Hrid).
        subst s1. simpl. destruct (stats s); simpl; try done. f_equal. lia.
      * right. destruct Hev as [->|(k2 & rid2 & r2 & Hk2 & Hr2 & Hnin & Hq2)].
        -- exists k, rid, r. split_and!; try done.
           rewrite Hcur1 in Hcur'. injection Hcur' as <-.
           by replace (cur - size r + size r + n) with (cur + n) by lia.
        -- exists k2, rid2, r2. split_and!; try done.
           rewrite Hd1 in Hk2. rewrite <- Hk2. symmetry. apply dict_get_del_ne.
           intros ->. apply Hknot. rewrite Hd1. by eapply dict_get_key.
    + destruct (IH fuel (pre ++ [k]) s cur Hwf ltac:(by rewrite <- app_assoc)
                  ltac:(lia) Hcur)
        as (s' & cur' & Hrun & H).
      exists s', cur'. rewrite length_app in Hrun. simpl in Hrun.
      split; [by rewrite Hstep|done].
Qed.

Lemma make_cache_room_evictions n s :
  wf s ->
  exists s' total total',
    _make_cache_room cfg rt n s = (s', Ok tt) /\
    total_size s = Some total /\
    total_size s' = Some total' /\
    hits <$> stats s' = hits <$> stats s /\
    misses <$> stats s' = misses <$> stats s /\
    cleared <$> stats s' =
      (fun st => cleared st + (Z.of_nat (length (_cached_models s))
                               - Z.of_nat (length (_cached_models s'))))
      <$> stats s /\
    (Qgtb (inject_Z (total + n)) (max_cache_size cfg * inject_Z GIG) = false ->
     s' = s) /\
    (s' = s \/
     exists k rid r,
       dict_get (_cached_models s) k = Some rid /\ heap s !! rid = Some r /\
       (k ∉ dict_keys (_cached_models s')) /\
       Qgtb (inject_Z (total' + size r + n))
         (max_cache_size cfg * inject_Z GIG) = true).
Proof.
  intros Hwf. destruct (wf_total_size s Hwf) as [cur Hcur].
  destruct (make_room_loop_evictions n (max_cache_size cfg * inject_Z GIG)
              (_cache_stack s) (S (length (_cache_stack s))) [] s cur
              Hwf eq_refl ltac:(lia) Hcur)
    as (s' & cur' & Hrun & Hcur' & Hhits & Hmiss & Hcl & Hev).
  assert (Hunfold : _make_cache_room cfg rt n s =
    make_room_loop rt (S (length (_cache_stack s))) n
      (max_cache_size cfg * inject_Z GIG) cur 0 s).
  { unfold _make_cache_room, _cache_size. unfold bind at 1.
    unfold total_size in Hcur. by rewrite Hcur. }
  exists s', cur, cur'. rewrite Hunfold. split_and!; try done.
  intros Hq. rewrite make_room_loop_stop in Hrun by (by left).
  by injection Hrun as <-.
Qed.

(** X10: [_make_cache_room] evicts no more than the request needs.  From a
    state that satisfies the invariant, when the cached total plus the bytes
    needed already fits the maximum size nothing is evicted and the state is
    unchanged; and when something is evicted, the last entry evicted was
    needed: with it still cached the request would not fit. *)
Theorem make_room_evicts_only_while_needed (n : Z) (s : State) :
  wf s ->
  exists s' total total',
    _make_cache_room cfg rt n s = (s', Ok tt) /\
    total_size s = Some total /\
    total_size s' = Some total' /\
    ((inject_Z (total + n) <= max_cache_size cfg * inject_Z GIG)%Q -> s' = s) /\
    (s' = s \/
     exists k rid r,
       dict_get (_cached_models s) k = Some rid /\ heap s !! rid = Some r /\
       (k ∉ dict_keys (_cached_models s')) /\
       (max_cache_size cfg * inject_Z GIG < inject_Z (total' + size r + n))%Q).
Proof.
  intros Hwf.
  destruct (make_cache_room_evictions n s Hwf)
    as (s' & total & total' & Hrun & Htot & Htot' & _ & _ & _ & Hfit & Hev).
  exists s', total, total'. split_and!; try done.
  - intros Hle. apply Hfit. unfold Qgtb. apply negb_false_iff.
    by apply Qle_bool_iff.
  - destruct Hev as [->|(k & rid & r & Hk & Hr & Hnin & Hq)]; [by left|right].
    exists k, rid, r. split_and!; try done. by apply Qgtb_true.
Qed.

(** X11: the statistics count the evictions.  From a state that satisfies
    the invariant, [_make_cache_room] adds to [stats.cleared] the number of
    entries it has taken out of the dictionary, and leaves the counts of
    hits and of misses as they were. *)
Theorem make_room_counts_evictions (n : Z) (s : State) :
  wf s ->
  exists s',
    _make_cache_room cfg rt n s = (s', Ok tt) /\
    cleared <$> stats s' =
      (fun st => cleared st + (Z.of_nat (length (_cached_models s))
                               - Z.of_nat (length (_cached_models s'))))
      <$> stats s /\
    hits <$> stats s' = hits <$> stats s /\
    misses <$> stats s' = misses <$> stats s.
Proof.
  intros Hwf.
  destruct (make_cache_room_evictions n s Hwf)
    as (s' & total & total' & Hrun & _ & _ & Hhits & Hmiss & Hcl & _).
  by exists s'.
Qed.

End Evictions.

Lemma ex_one_stats_wf : wf ex_one_stats.
Proof.
  split; simpl.
  - apply NoDup_singleton.
  - apply NoDup_singleton.
  - done.
  - apply NoDup_singleton.
  - intros rid ->%list_elem_of_singleton. by eexists.
Qed.

Lemma make_room_evicts_only_while_needed_witness :
  (_make_cache_room ex_cfg ex_rt GIG (ex_one "cpu" 0)).1 = ex_one "cpu" 0.
Proof.
  destruct (make_room_evicts_only_while_needed ex_cfg ex_rt GIG (ex_one "cpu" 0)
              (ex_one_wf "cpu" 0))
    as (s' & total & total' & Hrun & Htot & _ & Hfit & _).
  rewrite Hrun. simpl. apply Hfit.
  injection Htot as <-. vm_compute. by intros [=].
Defined.

Lemma make_room_counts_evictions_witness :
  cleared <$> stats (_make_cache_room ex_cfg ex_rt (4 * GIG) ex_one_stats).1
  = Some 1.
Proof.
  destruct (make_room_counts_evictions ex_cfg ex_rt (4 * GIG) ex_one_stats
              ex_one_stats_wf) as (s' & Hrun & Hcl & _).
  rewrite Hrun. simpl. rewrite Hcl.
  assert (Hs' : s' = (_make_cache_room ex_cfg ex_rt (4 * GIG) ex_one_stats).1)
    by (by rewrite Hrun).
  rewrite Hs'. vm_compute. reflexivity.
Defined.


(** ** The outcomes of [get_model] *)

Lemma list_remove_middle (pre post : list string) (k : string) :
  k ∉ pre -> list_remove k (pre ++ k :: post) = Some (pre ++ post).
Proof.
  induction pre as [|y pre IH]; simpl.
  - intros _. by rewrite String.eqb_refl.
  - intros [Hne Hnin]%not_elem_of_cons.
    destruct (String.eqb_spec y k) as [->|_]; [done|]. by rewrite IH.
Qed.

Lemma get_model_info_run path cls s :
  exists s1,
    _get_model_info path cls s
      = (s1, Ok (default cls (dict_get (model_infos s) (get_key path None)))) /\
    same_registry s s1 /\ stats s1 = stats s.
Proof.
  unfold _get_model_info. munfold.
  destruct (dict_get (model_infos s) path) as [info|]; simpl;
    eexists; (split; [reflexivity|]); by repeat split.
Qed.

Section Outcomes.

Variable cfg : Config.
Variable rt : Runtime.

Lemma record_stats_run k sz s :
  (forall rid, rid ∈ dict_values (_cached_models s) -> is_Some (heap s !! rid)) ->
  exists s' total,
    record_stats cfg k sz s = (s', Ok tt) /\ same_registry s s' /\
    total_size s = Some total /\
    stats s' =
      (fun st =>
         mkCacheStats (hits st) (misses st) (Z.max (high_watermark st) total)
           (Z.of_nat (length (_cached_models s))) (cleared st)
           (max_cache_size cfg * inject_Z GIG)%Q
           (dict_set (loaded_model_sizes st) k
              (Z.max (default 0 (dict_get (loaded_model_sizes st) k)) sz)))
      <$> stats s.
Proof.
  intros Hval. destruct (sum_sizes_is_Some _ _ Hval) as [z Hz].
  unfold record_stats, _cache_size. munfold. unfold total_size.
  destruct (stats s) as [st|] eqn:Hst.
  - rewrite Hz. eexists _, z. split; [reflexivity|]. simpl. rewrite Hst.
    by repeat split.
  - eexists _, z. split; [reflexivity|]. by repeat split.
Qed.

Lemma get_model_hit_run path cls sub gpu s rid r :
  wf s ->
  path_exists rt path = true ->
  dict_get (_cached_models s) (get_key path sub) = Some rid ->
  heap s !! rid = Some r ->
  exists s',
    get_model cfg rt path cls sub gpu s
      = (s', Ok (mkModelLocker gpu (get_key path sub) rid (size r) rid)) /\
    _cached_models s' = _cached_models s /\
    heap s' = heap s /\ vram s' = vram s /\ to_log s' = to_log s /\
    (exists pre post,
       _cache_stack s = pre ++ get_key path sub :: post /\
       _cache_stack s' = pre ++ post ++ [get_key path sub]) /\
    hits <$> stats s' = (fun st => hits st + 1) <$> stats s /\
    misses <$> stats s' = misses <$> stats s /\
    cleared <$> stats s' = cleared <$> stats s.
Proof.
  intros Hwf Hex Hhit Hr. set (k := get_key path sub) in *.
  destruct (get_model_info_run path cls s) as (s1 & Hinfo & Hreg1 & Hstats1).
  destruct Hreg1 as (Hst1 & Hd1 & Hh1 & Hv1 & Hl1).
  set (s2 := set_stats s1 (incr_hits <$> stats s1)).
  destruct (record_stats_run k
              (info_get_size (default cls (dict_get (model_infos s) (get_key path None))) sub)
              s2) as (s3 & total & Hrec & Hreg3 & _ & Hstats3).
  { simpl. rewrite Hd1, Hh1. apply Hwf. }
  destruct Hreg3 as (Hst3 & Hd3 & Hh3 & Hv3 & Hl3). simpl in *.
  assert (Hin : k ∈ _cache_stack s).
  { apply Hwf. by eapply dict_get_key. }
  apply list_elem_of_split in Hin as (pre & post & Hsplit).
  assert (Hnin : k ∉ pre).
  { pose proof (wf_stack_nodup _ Hwf) as Hnd. rewrite Hsplit in Hnd.
    apply NoDup_app in Hnd as (_ & Hdisj & _). intros Hin. apply (Hdisj k Hin).
    by left. }
  eexists. split.
  - unfold get_model. rewrite Hex. simpl. unfold bind at 1. rewrite Hinfo.
    unfold bind at 1. unfold get at 1. fold k. rewrite Hd1, Hhit.
    unfold bind at 1. unfold bind at 1. rewrite update_stats_spec.
    unfold ret at 1. fold s2. unfold bind at 1. rewrite Hrec.
    unfold ModelLocker_init. munfold.
    rewrite Hh3, Hh1, Hr. simpl. rewrite Hd3, Hd1, Hhit. reflexivity.
  - simpl. rewrite Hd3, Hd1, Hh3, Hh1, Hv3, Hv1, Hl3, Hl1, Hst3, Hst1.
    split_and!; try done.
    + exists pre, post. split; [done|].
      rewrite Hsplit, (list_remove_middle _ _ _ Hnin). simpl.
      by rewrite <- app_assoc.
    + rewrite Hstats3. subst s2. simpl. rewrite Hstats1. by destruct (stats s).
    + rewrite Hstats3. subst s2. simpl. rewrite Hstats1. by destruct (stats s).
    + rewrite Hstats3. subst s2. simpl. rewrite Hstats1. by destruct (stats s).
Qed.

Lemma get_model_miss_run path cls sub gpu s :
  wf s ->
  path_exists rt path = true ->
  dict_get (_cached_models s) (get_key path sub) = None ->
  let info := default cls (dict_get (model_infos s) (get_key path None)) in
  let rid := length (heap s) in
  let sz := info_get_size info sub in
  exists sm,
    before_load cfg rt path cls sub s = (sm, Ok tt) /\
    wf sm /\ heap sm = heap s /\
    dict_get (_cached_models sm) (get_key path sub) = None /\
    hits <$> stats sm = hits <$> stats s /\
    misses <$> stats sm = (fun st => misses st + 1) <$> stats s /\
    match info_get_model info sub with
    | None => get_model cfg rt path cls sub gpu s = (sm, Raise LoadError)
    | Some m =>
        exists s',
          get_model cfg rt path cls sub gpu s
            = (s', Ok (mkModelLocker gpu (get_key path sub) rid sz rid)) /\
          heap s' = heap s ++ [new_CacheRecord m sz] /\
          _cached_models s' = _cached_models sm ++ [(get_key path sub, rid)] /\
          _cache_stack s' = _cache_stack sm ++ [get_key path sub] /\
          vram s' = vram s /\ to_log s' = to_log s /\
          hits <$> stats s' = hits <$> stats s /\
          misses <$> stats s' = (fun st => misses st + 1) <$> stats s
    end.
Proof.
  intros Hwf Hex Hmiss info rid sz. set (k := get_key path sub) in *.
  destruct (get_model_info_run path cls s) as (s1 & Hinfo & Hreg1 & Hstats1).
  fold info in Hinfo.
  pose proof (same_registry_wf _ _ Hreg1 Hwf) as Hwf1.
  destruct Hreg1 as (Hst1 & Hd1 & Hh1 & Hv1 & Hl1).
  set (s2 := set_stats s1 (incr_misses <$> stats s1)).
  assert (Hwf2 : wf s2) by (eapply same_registry_wf; [|exact Hwf1]; by repeat split).
  destruct (make_cache_room_spec cfg rt sz s2 Hwf2)
    as (sm & scanned & rest' & cur' & Hrun & _ & _ & Hsub & Hhm & Hvm & Hlm & _
        & Hwfm & _).
  destruct (make_cache_room_evictions cfg rt sz s2 Hwf2)
    as (sm' & _ & _ & Hrun' & _ & _ & Hhits & Hmisses & _).
  rewrite Hrun in Hrun'. injection Hrun' as <-.
  simpl in Hhm, Hvm, Hlm, Hhits, Hmisses.
  assert (Hkm : dict_get (_cached_models sm) k = None).
  { apply dict_get_None. intros Hin. apply dict_get_None in Hmiss. apply Hmiss.
    rewrite <- Hd1. eapply elem_of_sublist; [exact Hin|]. by apply fmap_sublist. }
  assert (Hhits_m : hits <$> stats sm = hits <$> stats s).
  { rewrite Hhits, Hstats1. by destruct (stats s). }
  assert (Hmisses_m : misses <$> stats sm = (fun st => misses st + 1) <$> stats s).
  { rewrite Hmisses, Hstats1. by destruct (stats s). }
  assert (Hbefore : before_load cfg rt path cls sub s = (sm, Ok tt)).
  { unfold before_load. unfold bind at 1. rewrite Hinfo.
    unfold bind. rewrite update_stats_spec. fold s2. fold sz. by rewrite Hrun. }
  exists sm. split_and!; try done; [by rewrite Hhm|].
  destruct (get_model cfg rt path cls sub gpu s) as [s' res] eqn:H.
  unfold get_model in H. rewrite Hex in H. simpl in H.
  apply bind_inv in H as [(s1' & info' & Hinfo' & H)|(e & Hinfo' & _)];
    [|congruence].
  rewrite Hinfo in Hinfo'. injection Hinfo' as <- <-.
  apply bind_inv in H as [(s1' & s1'' & [= <- <-] & H)|(e & [=] & _)].
  fold k in H. rewrite Hd1, Hmiss in H.
  assert (Hblock : forall s3 resb,
    (update_stats incr_misses ;;
     _make_cache_room cfg rt (info_get_size info sub) ;;
     match info_get_model info sub with
     | None => raise LoadError
     | Some model_ =>
         let mem_used := info_get_size info sub in
         s1 <- get ;;
         let rid := length (heap s1) in
         modify (fun s =>
           set_heap s (heap s ++ [new_CacheRecord model_ mem_used])) ;;
         modify (fun s =>
           set_cached_models s (dict_set (_cached_models s) k rid)) ;;
         ret rid
     end) s1 = (s3, resb) ->
    match info_get_model info sub with
    | None => s3 = sm /\ resb = Raise LoadError
    | Some m =>
        resb = Ok (length (heap sm)) /\
        heap s3 = heap sm ++ [new_CacheRecord m sz] /\
        _cached_models s3 = _cached_models sm ++ [(k, length (heap sm))] /\
        _cache_stack s3 = _cache_stack sm /\ vram s3 = vram sm /\
        to_log s3 = to_log sm /\ stats s3 = stats sm
    end).
  { intros s3 resb Hb.
    apply bind_inv in Hb as [(s2' & [] & Hst & Hb)|(e & [=] & _)].
    rewrite update_stats_spec in Hst. injection Hst as <-. fold s2 in Hb.
    apply bind_inv in Hb as [(sm' & [] & Hrun' & Hb)|(e & Hrun' & _)];
      [|fold sz in Hrun'; congruence].
    fold sz in Hrun'. rewrite Hrun in Hrun'. injection Hrun' as <-.
    destruct (info_get_model info sub) as [m|].
    - munfold. injection Hb as <- <-. simpl.
      rewrite (dict_set_fresh _ _ _ Hkm). by split_and!.
    - munfold. by injection Hb as <- <-. }
  apply bind_inv in H as [(s3 & rid0 & Hblk & H)|(e & Hblk & ->)];
    apply Hblock in Hblk; destruct (info_get_model info sub) as [m|].
  2:{ by destruct Hblk as [_ [=]]. }
  2:{ by destruct Hblk as [[=] _]. }
  2:{ by destruct Hblk as [-> [= ->]]. }
  destruct Hblk as ([= ->] & Hh3 & Hd3 & Hst3 & Hv3 & Hl3 & Hstat3).
  assert (Hval3 : forall rid', rid' ∈ dict_values (_cached_models s3) ->
                               is_Some (heap s3 !! rid')).
  { rewrite Hd3, Hh3. unfold dict_values. rewrite fmap_app. simpl.
    intros rid' [Hin| ->%list_elem_of_singleton]%elem_of_app;
      apply lookup_lt_is_Some; rewrite length_app; simpl; [|lia].
    apply (wf_values_valid _ Hwfm), lookup_lt_is_Some in Hin. lia. }
  destruct (record_stats_run k sz s3 Hval3)
    as (s4 & total & Hrec & Hreg4 & _ & Hstats4).
  destruct Hreg4 as (Hst4 & Hd4 & Hh4 & Hv4 & Hl4).
  apply bind_inv in H as [(s4' & [] & Hrec' & H)|(e & Hrec' & _)];
    [|fold sz in Hrec'; congruence].
  fold sz in Hrec'. rewrite Hrec in Hrec'. injection Hrec' as <-.
  assert (Hnew : heap s4 !! length (heap sm) = Some (new_CacheRecord m sz)).
  { rewrite Hh4, Hh3. by apply list_lookup_middle. }
  assert (Hk4 : dict_get (_cached_models s4) k = Some (length (heap sm))).
  { rewrite Hd4, Hd3. rewrite <- (dict_set_fresh _ _ _ Hkm).
    apply dict_get_set_eq. }
  assert (Hrm : list_remove k (_cache_stack s4) = None).
  { apply list_remove_None. rewrite Hst4, Hst3. intros Hin.
    apply dict_get_None in Hkm. apply Hkm. by apply Hwfm. }
  unfold ModelLocker_init in H. munfold. rewrite Hnew in H. simpl in H.
  rewrite Hk4 in H. injection H as <- <-. simpl.
  rewrite Hrm. simpl.
  assert (Hheq : heap sm = heap s) by congruence.
  unfold rid. rewrite <- Hheq.
  eexists. split; [reflexivity|]. simpl.
  split_and!.
  - by rewrite Hh4, Hh3.
  - by rewrite Hd4, Hd3.
  - by rewrite Hst4, Hst3.
  - congruence.
  - congruence.
  - rewrite Hstats4, Hstat3. rewrite <- Hhits_m. by destruct (stats sm).
  - rewrite Hstats4, Hstat3. rewrite <- Hmisses_m. by destruct (stats sm).
Qed.

Lemma get_model_cases path cls sub gpu s s' res :
  wf s ->
  get_model cfg rt path cls sub gpu s = (s', res) ->
  let k := get_key path sub in
  let info := default cls (dict_get (model_infos s) (get_key path None)) in
  let sz := info_get_size info sub in
  (path_exists rt path = false /\ s' = s /\ res = Raise ModelNotFound) \/
  (path_exists rt path = true /\
   exists rid r,
     dict_get (_cached_models s) k = Some rid /\ heap s !! rid = Some r /\
     res = Ok (mkModelLocker gpu k rid (size r) rid) /\
     heap s' = heap s /\ _cached_models s' = _cached_models s) \/
  (path_exists rt path = true /\ dict_get (_cached_models s) k = None /\
   info_get_model info sub = None /\ res = Raise LoadError /\
   before_load cfg rt path cls sub s = (s', Ok tt)) \/
  (path_exists rt path = true /\ dict_get (_cached_models s) k = None /\
   exists m,
     info_get_model info sub = Some m /\
     res = Ok (mkModelLocker gpu k (length (heap s)) sz (length (heap s))) /\
     heap s' = heap s ++ [new_CacheRecord m sz]).
Proof.
  intros Hwf Hrun k info sz.
  destruct (path_exists rt path) eqn:Hex.
  2:{ left. unfold get_model in Hrun. rewrite Hex in Hrun. simpl in Hrun.
      by injection Hrun as <- <-. }
  right. destruct (dict_get (_cached_models s) k) as [rid|] eqn:Hk.
  - left. split; [done|].
    destruct (wf_values_valid _ Hwf rid) as [r Hr]; [by eapply dict_get_value|].
    destruct (get_model_hit_run path cls sub gpu s rid r Hwf Hex Hk Hr)
      as (s1 & Hrun1 & Hd & Hh & _).
    rewrite Hrun1 in Hrun. injection Hrun as <- <-. by exists rid, r.
  - right.
    destruct (get_model_miss_run path cls sub gpu s Hwf Hex Hk)
      as (sm & Hbefore & _ & _ & _ & _ & _ & Hcase).
    fold info in Hcase. fold sz in Hcase.
    destruct (info_get_model info sub) as [m|].
    + right. destruct Hcase as (s1 & Hrun1 & Hh & _).
      rewrite Hrun1 in Hrun. injection Hrun as <- <-.
      split; [done|]. split; [done|]. by exists m.
    + left. rewrite Hcase in Hrun. injection Hrun as <- <-. by split_and!.
Qed.

(** X12: a hit of [get_model] loads nothing and evicts nothing.  From a
    state that satisfies the invariant, for an existing path whose key is
    cached, [get_model] returns a guard on the cached record; the dictionary,
    the store and the VRAM are untouched, no transfer is made, the key moves
    from its place to the most-recently-used end of the stack with the order
    of the others kept, and the statistics count one hit more. *)
Theorem get_model_hit_reuses_record (model_path : string)
    (model_class : ModelBase) (submodel : option string) (gpu_load_ : bool)
    (s : State) (rid : nat) (r : _CacheRecord) :
  wf s ->
  path_exists rt model_path = true ->
  dict_get (_cached_models s) (get_key model_path submodel) = Some rid ->
  heap s !! rid = Some r ->
  exists s',
    get_model cfg rt model_path model_class submodel gpu_load_ s
      = (s', Ok (mkModelLocker gpu_load_ (get_key model_path submodel) rid
                   (size r) rid)) /\
    _cached_models s' = _cached_models s /\
    heap s' = heap s /\ vram s' = vram s /\ to_log s' = to_log s /\
    (exists pre post,
       _cache_stack s = pre ++ get_key model_path submodel :: post /\
       _cache_stack s' = pre ++ post ++ [get_key model_path submodel]) /\
    hits <$> stats s' = (fun st => hits st + 1) <$> stats s /\
    misses <$> stats s' = misses <$> stats s /\
    cleared <$> stats s' = cleared <$> stats s.
Proof. apply get_model_hit_run. Qed.

(** X13: a miss of [get_model] whose load returns registers a new record.
    From a state that satisfies the invariant, after the steps that precede
    the load (which may evict), the model is put in a record of its own at a
    new address, with the size its descriptor reports and no lock; the key
    is appended to the dictionary and to the most-recently-used end of the
    stack, the guard returned is on that record, no transfer is made, and
    the statistics count one miss more. *)
Theorem get_model_miss_registers_new_record (model_path : string)
    (model_class : ModelBase) (submodel : option string) (gpu_load_ : bool)
    (s : State) (m : option ModelObj) :
  wf s ->
  path_exists rt model_path = true ->
  dict_get (_cached_models s) (get_key model_path submodel) = None ->
  let info :=
    default model_class (dict_get (model_infos s) (get_key model_path None)) in
  let rid := length (heap s) in
  let sz := info_get_size info submodel in
  info_get_model info submodel = Some m ->
  exists sm s',
    before_load cfg rt model_path model_class submodel s = (sm, Ok tt) /\
    get_model cfg rt model_path model_class submodel gpu_load_ s
      = (s', Ok (mkModelLocker gpu_load_ (get_key model_path submodel) rid sz rid)) /\
    heap s' = heap s ++ [new_CacheRecord m sz] /\
    locks_at s' rid = Some 0 /\
    _cached_models s' = _cached_models sm ++ [(get_key model_path submodel, rid)] /\
    _cache_stack s' = _cache_stack sm ++ [get_key model_path submodel] /\
    vram s' = vram s /\ to_log s' = to_log s /\
    hits <$> stats s' = hits <$> stats s /\
    misses <$> stats s' = (fun st => misses st + 1) <$> stats s.
Proof.
  intros Hwf Hex Hmiss info rid sz Hload.
  destruct (get_model_miss_run model_path model_class submodel gpu_load_ s
              Hwf Hex Hmiss) as (sm & Hbefore & _ & _ & _ & _ & _ & Hcase).
  fold info in Hcase. rewrite Hload in Hcase.
  destruct Hcase as (s' & Hrun & Hh & Hd & Hst & Hv & Hl & Hhits & Hmisses).
  exists sm, s'. split_and!; try done.
  unfold locks_at. rewrite Hh. by rewrite list_lookup_middle.
Qed.

(** X14: the guard [get_model] returns is on the record of its key.  From
    a state that satisfies the invariant, when the path does not exist
    [get_model] raises before anything else is done and the state is
    unchanged, no descriptor being built; and whenever it returns, on a hit
    as on a miss, the path exists, the guard has the key of the request and
    the [gpu_load] it was asked for, its model and its cache entry are the
    same record, that record is the one the dictionary now holds for the
    key, and [size_needed] is that record's size. *)
Theorem get_model_guard_is_on_cached_record (model_path : string)
    (model_class : ModelBase) (submodel : option string) (gpu_load_ : bool)
    (s s' : State) (res : Res ModelLocker) :
  wf s ->
  get_model cfg rt model_path model_class submodel gpu_load_ s = (s', res) ->
  (path_exists rt model_path = false ->
   res = Raise ModelNotFound /\ s' = s) /\
  (forall L, res = Ok L ->
     path_exists rt model_path = true /\
     key L = get_key model_path submodel /\
     gpu_load L = gpu_load_ /\
     lk_model L = cache_entry L /\
     dict_get (_cached_models s') (get_key model_path submodel)
       = Some (cache_entry L) /\
     exists r, heap s' !! cache_entry L = Some r /\ size_needed L = size r).
Proof.
  intros Hwf Hrun.
  destruct (get_model_spec _ _ _ _ _ _ _ _ _ Hwf Hrun) as [_ Hspec].
  destruct (get_model_cases _ _ _ _ _ _ _ Hwf Hrun)
    as [(Hex & -> & ->)|[(Hex & rid & r & Hk & Hr & -> & Hh & Hd)
       |[(Hex & Hk & Hload & -> & _)|(Hex & Hk & m & Hload & -> & Hh)]]].
  - split; [done|]. by intros L [=].
  - split; [congruence|]. intros L [= <-].
    destruct (Hspec _ eq_refl) as (_ & _ & Hget). simpl in *.
    split_and!; try done. exists r. by rewrite Hh.
  - split; [congruence|]. by intros L [=].
  - split; [congruence|]. intros L [= <-].
    destruct (Hspec _ eq_refl) as (_ & _ & Hget). simpl in *.
    split_and!; try done. eexists. rewrite Hh.
    split; [by apply list_lookup_middle|done].
Qed.

Lemma last_middle_nodup (pre post : list string) (k : string) :
  NoDup (pre ++ k :: post) -> last (pre ++ k :: post) = Some k -> post = [].
Proof.
  intros Hnd Hlast. destruct post as [|x post] using rev_ind; [done|].
  exfalso. rewrite app_comm_cons, app_assoc, last_snoc in Hlast.
  injection Hlast as ->.
  apply NoDup_app in Hnd as (_ & _ & Hnd). apply NoDup_cons in Hnd as [Hk _].
  apply Hk. apply elem_of_app. right. by left.
Qed.

(** X15: an access repeated at once is a hit that changes nothing but the
    count of hits.  From a state that satisfies the invariant, when
    [get_model] returns a guard, the same call made again returns the same
    guard, and leaves the dictionary, the LRU stack, the store and the VRAM
    as the first call left them. *)
Theorem get_model_twice_is_a_hit (model_path : string)
    (model_class : ModelBase) (submodel : option string) (gpu_load_ : bool)
    (s s1 : State) (L : ModelLocker) :
  wf s ->
  get_model cfg rt model_path model_class submodel gpu_load_ s = (s1, Ok L) ->
  exists s2,
    get_model cfg rt model_path model_class submodel gpu_load_ s1 = (s2, Ok L) /\
    _cached_models s2 = _cached_models s1 /\
    _cache_stack s2 = _cache_stack s1 /\
    heap s2 = heap s1 /\ vram s2 = vram s1 /\ to_log s2 = to_log s1 /\
    hits <$> stats s2 = (fun st => hits st + 1) <$> stats s1 /\
    misses <$> stats s2 = misses <$> stats s1 /\
    cleared <$> stats s2 = cleared <$> stats s1.
Proof.
  intros Hwf Hrun.
  destruct (get_model_spec _ _ _ _ _ _ _ _ _ Hwf Hrun) as [Hwf1 Hspec].
  destruct (Hspec _ eq_refl) as (_ & Hlast & Hget).
  assert (HL : exists rid r, heap s1 !! rid = Some r /\
             L = mkModelLocker gpu_load_ (get_key model_path submodel) rid (size r) rid).
  { destruct (get_model_cases _ _ _ _ _ _ _ Hwf Hrun)
      as [(_ & _ & [=])|[(Hex & rid & r & Hk & Hr & [= ->] & Hh & Hd)
         |[(_ & _ & _ & [=] & _)|(Hex & Hk & m & Hload & [= ->] & Hh)]]].
    - exists rid, r. by rewrite Hh.
    - eexists _, _. rewrite Hh. split; [by apply list_lookup_middle|done]. }
  destruct HL as (rid & r & Hr & ->). simpl in Hget.
  assert (Hex : path_exists rt model_path = true).
  { destruct (path_exists rt model_path) eqn:Hex; [done|].
    unfold get_model in Hrun. by rewrite Hex in Hrun. }
  destruct (get_model_hit_run model_path model_class submodel gpu_load_ s1 rid r
              Hwf1 Hex Hget Hr)
    as (s2 & Hrun2 & Hd & Hh & Hv & Hl & (pre & post & Hst1 & Hst2) & Hhits
        & Hmisses & Hcleared).
  exists s2. split_and!; try done.
  rewrite Hst1 in Hlast.
  assert (post = []) as ->.
  { eapply last_middle_nodup; [|exact Hlast]. rewrite <- Hst1. apply Hwf1. }
  by rewrite Hst2, Hst1.
Qed.

End Outcomes.

Lemma get_model_hit_reuses_record_witness :
  exists s',
    get_model ex_cfg ex_rt "unet" ex_provider None true (ex_two 0)
      = (s', Ok (mkModelLocker true "unet" 0 (4 * GIG) 0)) /\
    heap s' = heap (ex_two 0) /\
    _cache_stack s' = ["vae"; "unet"].
Proof.
  destruct (get_model_hit_reuses_record ex_cfg ex_rt "unet" ex_provider None
              true (ex_two 0) 0%nat
              (mk_CacheRecord (4 * GIG) (Some (ex_torch "cuda")) 0)
              (ex_two_wf 0) eq_refl eq_refl eq_refl)
    as (s' & Hrun & _ & Hh & _).
  exists s'. split; [exact Hrun|]. split; [exact Hh|].
  assert (Hs' : s' = (get_model ex_cfg ex_rt "unet" ex_provider None true
                        (ex_two 0)).1) by (by rewrite Hrun).
  rewrite Hs'. vm_compute. reflexivity.
Defined.

Lemma get_model_miss_registers_new_record_witness :
  exists sm s',
    before_load ex_cfg ex_rt "sdxl" ex_provider None (ex_one "cpu" 0)
      = (sm, Ok tt) /\
    get_model ex_cfg ex_rt "sdxl" ex_provider None true (ex_one "cpu" 0)
      = (s', Ok (mkModelLocker true "sdxl" 1 (4 * GIG) 1)) /\
    locks_at s' 1 = Some 0.
Proof.
  destruct (get_model_miss_registers_new_record ex_cfg ex_rt "sdxl" ex_provider
              None true (ex_one "cpu" 0) (Some (ex_torch "cpu"))
              (ex_one_wf "cpu" 0) eq_refl eq_refl eq_refl)
    as (sm & s' & Hb & Hrun & _ & Hl & _).
  by exists sm, s'.
Defined.

Lemma get_model_guard_is_on_cached_record_witness :
  let run := get_model ex_cfg ex_rt "sdxl" ex_provider None false
               (ex_one "cpu" 0) in
  run.2 = Ok (mkModelLocker false "sdxl" 1 (4 * GIG) 1) /\
  dict_get (_cached_models run.1) "sdxl" = Some 1%nat /\
  exists r, heap run.1 !! 1%nat = Some r /\ 4 * GIG = size r.
Proof.
  intros run.
  assert (Hres : run.2 = Ok (mkModelLocker false "sdxl" 1 (4 * GIG) 1))
    by (vm_compute; reflexivity).
  split; [exact Hres|].
  destruct (get_model_guard_is_on_cached_record ex_cfg ex_rt "sdxl" ex_provider
              None false (ex_one "cpu" 0) run.1 run.2 (ex_one_wf "cpu" 0)
              (surjective_pairing _)) as [_ H].
  destruct (H _ Hres) as (_ & _ & _ & _ & Hget & Hr).
  by split.
Defined.

Lemma get_model_twice_is_a_hit_witness :
  let s1 := (get_model ex_cfg ex_rt "sdxl" ex_provider None true
               (ex_one "cpu" 0)).1 in
  exists s2,
    get_model ex_cfg ex_rt "sdxl" ex_provider None true s1
      = (s2, Ok (mkModelLocker true "sdxl" 1 (4 * GIG) 1)) /\
    _cache_stack s2 = _cache_stack s1.
Proof.
  intros s1.
  destruct (get_model_twice_is_a_hit ex_cfg ex_rt "sdxl" ex_provider None
              true (ex_one "cpu" 0) s1 (mkModelLocker true "sdxl" 1 (4 * GIG) 1)
              (ex_one_wf "cpu" 0) ltac:(vm_compute; reflexivity))
    as (s2 & Hrun2 & _ & Hst & _).
  by exists s2.
Defined.


(** ** The statistics after an access *)

Section Statistics.

Variable cfg : Config.
Variable rt : Runtime.

Lemma record_stats_ok_inv k sz s s' :
  record_stats cfg k sz s = (s', Ok tt) ->
  same_registry s s' /\
  forall st', stats s' = Some st' ->
    exists st total,
      stats s = Some st /\ total_size s = Some total /\
      in_cache st' = Z.of_nat (length (_cached_models s)) /\
      high_watermark st' = Z.max (high_watermark st) total /\
      cache_size st' = (max_cache_size cfg * inject_Z GIG)%Q /\
      loaded_model_sizes st' =
        dict_set (loaded_model_sizes st) k
          (Z.max (default 0 (dict_get (loaded_model_sizes st) k)) sz).
Proof.
  unfold record_stats, _cache_size. munfold. unfold total_size.
  destruct (stats s) as [st|] eqn:Hst.
  - destruct (sum_sizes _ _) as [z|]; [|done]. intros [= <-]. simpl.
    split; [by repeat split|]. rewrite Hst. simpl. intros st' [= <-].
    by exists st, z.
  - intros [= <-]. split; [by repeat split|]. by rewrite Hst.
Qed.

(** X16: after an access the statistics describe the cache.  When
    [get_model] returns and the statistics are on, [in_cache] is the number
    of cached models, [high_watermark] is at least the total size of the
    cache and [cache_size] is the configured maximum in bytes; the size
    kept for the key in [loaded_model_sizes] is at least the size the
    descriptor reports. *)
Theorem stats_describe_the_cache (model_path : string)
    (model_class : ModelBase) (submodel : option string) (gpu_load_ : bool)
    (s s' : State) (L : ModelLocker) (st' : CacheStats) :
  get_model cfg rt model_path model_class submodel gpu_load_ s = (s', Ok L) ->
  stats s' = Some st' ->
  let info :=
    default model_class (dict_get (model_infos s) (get_key model_path None)) in
  in_cache st' = Z.of_nat (length (_cached_models s')) /\
  (exists total, total_size s' = Some total /\ total <= high_watermark st') /\
  cache_size st' = (max_cache_size cfg * inject_Z GIG)%Q /\
  (exists v, dict_get (loaded_model_sizes st') (get_key model_path submodel)
               = Some v /\
             info_get_size info submodel <= v).
Proof.
  intros H Hst' info. unfold get_model in H.
  destruct (path_exists rt model_path); simpl in H; [|done].
  destruct (get_model_info_run model_path model_class s) as (s1 & Hinfo & _ & _).
  fold info in Hinfo.
  apply bind_inv in H as [(s1' & info' & Hinfo' & H)|(e & _ & [=])].
  rewrite Hinfo in Hinfo'. injection Hinfo' as <- <-.
  apply bind_inv in H as [(s1' & s1'' & [= <- <-] & H)|(e & _ & [=])].
  apply bind_inv in H as [(s3 & rid & _ & H)|(e & _ & [=])].
  apply bind_inv in H as [(s4 & [] & Hrec & H)|(e & _ & [=])].
  apply record_stats_ok_inv in Hrec as [(Hst4 & Hd4 & Hh4 & _) Hstats].
  assert (Hs' : stats s' = stats s4 /\ _cached_models s' = _cached_models s4 /\
                heap s' = heap s4).
  { unfold ModelLocker_init in H. munfold.
    destruct (heap s4 !! rid) as [r|]; [|done]. simpl in H.
    destruct (dict_get (_cached_models s4) (get_key model_path submodel));
      [|done].
    by injection H as <- _. }
  destruct Hs' as (Hs & Hd & Hh). rewrite Hs in Hst'.
  destruct (Hstats st' Hst') as (st & total & _ & Htot & Hin & Hhw & Hcs & Hlms).
  split_and!; try done.
  - by rewrite Hd, Hd4.
  - exists total. split; [|lia]. unfold total_size in *. by rewrite Hd, Hh, Hd4, Hh4.
  - eexists. split; [rewrite Hlms; apply dict_get_set_eq|]. lia.
Qed.

End Statistics.

Lemma stats_describe_the_cache_witness :
  let s' := (get_model ex_cfg ex_rt "sdxl" ex_provider None true ex_one_stats).1 in
  exists st',
    stats s' = Some st' /\
    in_cache st' = Z.of_nat (length (_cached_models s')) /\
    (exists total, total_size s' = Some total /\ total <= high_watermark st').
Proof.
  intros s'. eexists. split; [vm_compute; reflexivity|].
  destruct (stats_describe_the_cache ex_cfg ex_rt "sdxl" ex_provider None true
              ex_one_stats s' (mkModelLocker true "sdxl" 1 (4 * GIG) 1) _
              ltac:(vm_compute; reflexivity) ltac:(vm_compute; reflexivity))
    as (Hin & Hhw & _).
  by split.
Defined.

